(** * html_writer: line buffer, relative indentation and tag scopes

    A shallow embedding of [html_writer/html_writer.py].

    - Python [str] is [string]; [len] is [String.length]; [s * n] (string
      repetition, empty for [n <= 0]) is [str_mul].
    - Python [int] is [Z].
    - The [deque] of [_HtmlLine] objects owned by one [Html] object is a
      [list]; [d[-1]] is the element at index [length d - 1].
    - Methods that only touch [self] are state transformers on the value of
      [self]; code that may raise runs in the state-and-exception monad [M].
    - Methods that involve two [Html] objects ([__iadd__], [__add__],
      [deepcopy]) run on an object store [gmap loc Html], so that aliasing
      of [self] and [other] is visible.  An [Html] object owns its deque
      and its [_HtmlLine] objects: [__init__], [newline] and
      [enclose_with_tag] build new lines, and [deepcopy] copies them, so a
      line is never shared by two documents and the store maps an object
      to the value of its deque and buffer. *)

From Stdlib Require Import ZArith String Ascii List Lia.
From stdpp Require Import base list strings gmap.

(** ** Strings *)

Definition nl : string := String "010"%char EmptyString.
Definition dquote : string := String "034"%char EmptyString.

Fixpoint str_repeat (s : string) (n : nat) : string :=
  match n with
  | O => EmptyString
  | S k => s +:+ str_repeat s k
  end.

(** [s * n] on a Python string. *)
Definition str_mul (s : string) (n : Z) : string := str_repeat s (Z.to_nat n).

(** [sep.join(parts)]. *)
Fixpoint str_join (sep : string) (parts : list string) : string :=
  match parts with
  | [] => EmptyString
  | [p] => p
  | p :: rest => p +:+ sep +:+ str_join sep rest
  end.

(** ** Exceptions and outcomes *)

Inductive exception :=
| WriteOutError (msg : string)
| RuntimeError (msg : string)
| OtherError (msg : string).

Inductive outcome (A : Type) :=
| Return (a : A)
| Raise (e : exception).
Arguments Return {A} a.
Arguments Raise {A} e.

(** State [S] survives an exception: Python mutates in place. *)
Definition M (S A : Type) : Type := S -> S * outcome A.

Definition ret {S A} (a : A) : M S A := fun s => (s, Return a).
Definition raise {S A} (e : exception) : M S A := fun s => (s, Raise e).
Definition bind {S A B} (m : M S A) (k : A -> M S B) : M S B :=
  fun s => match m s with
           | (s', Return a) => k a s'
           | (s', Raise e) => (s', Raise e)
           end.
Definition get {S} : M S S := fun s => (s, Return s).
Definition modify {S} (f : S -> S) : M S unit := fun s => (f s, Return tt).

(** [try: body finally: handler]. *)
Definition try_finally {S A} (body : M S A) (handler : M S unit) : M S A :=
  fun s => match body s with
           | (s', r) =>
               match handler s' with
               | (s'', Return _) => (s'', r)
               | (s'', Raise e) => (s'', Raise e)
               end
           end.

Declare Scope py_scope.
Delimit Scope py_scope with py.
Notation "x <- m ;; k" := (bind m (fun x => k))
  (at level 100, m at next level, right associativity) : py_scope.
Notation "m ;; k" := (bind m (fun _ => k))
  (at level 100, right associativity) : py_scope.

(** ** class Indent(enum.Enum) *)

Module Indent.

Inductive t := dedent | nothing | indent.

Definition from_int (val : Z) : t :=
  if (val >? 0)%Z then indent
  else if (val <? 0)%Z then dedent
  else nothing.

Definition to_int (self : t) : Z :=
  match self with
  | indent => 1
  | dedent => -1
  | nothing => 0
  end%Z.

(** [Indent.__add__] *)
Definition add (self other : t) : t :=
  from_int (to_int self + to_int other).

#[global] Instance eq_dec : EqDecision t.
Proof. solve_decision. Defined.

End Indent.

(** The contract the specification states for the integer conversion:
    defined on -1, 0 and 1 only, an error ([None]) elsewhere. *)
Definition from_int_partial (n : Z) : option Indent.t :=
  if (n =? -1)%Z then Some Indent.dedent
  else if (n =? 0)%Z then Some Indent.nothing
  else if (n =? 1)%Z then Some Indent.indent
  else None.

(** ** @dataclass _HtmlLine *)

Record _HtmlLine := mk_HtmlLine { line : string; indent : Indent.t }.

#[global] Instance _HtmlLine_eq_dec : EqDecision _HtmlLine.
Proof. solve_decision. Defined.

(** ** class Html *)

Record Html := mkHtml { _inner_html : list _HtmlLine; _buffer : string }.

(** The argument of [Html.__init__]. *)
Inductive init_content :=
| NoContent
| StrContent (content : string)
| SeqContent (content : list string).

Definition Html_init (content : init_content) : Html :=
  let contents :=
    match content with
    | NoContent => []
    | StrContent content => [mk_HtmlLine content Indent.nothing]
    | SeqContent content =>
        map (fun line => mk_HtmlLine line Indent.nothing) content
    end in
  mkHtml contents EmptyString.

(** [indent: Union[Indent, int]] of [newline]. *)
Inductive indent_arg :=
| AsIndent (i : Indent.t)
| AsInt (n : Z).

Definition coerce_indent (a : indent_arg) : Indent.t :=
  match a with
  | AsInt n => Indent.from_int n
  | AsIndent i => i
  end.

(** [self._inner_html[-1].indent += indent] *)
Definition bump_last (delta : Indent.t) (lines : list _HtmlLine)
  : list _HtmlLine :=
  alter (fun l => mk_HtmlLine (line l) (Indent.add (indent l) delta))
        (length lines - 1)%nat lines.

Definition newline (force : bool) (indent : indent_arg) (self : Html) : Html :=
  let indent := coerce_indent indent in
  if negb force
     && (String.length (_buffer self) =? 0)%nat
     && (0 <? length (_inner_html self))%nat
  then
    mkHtml (bump_last indent (_inner_html self)) (_buffer self)
  else
    mkHtml (_inner_html self ++ [mk_HtmlLine (_buffer self) indent])
           EmptyString.

(** [__iadd__] with a [str] argument: [self._buffer += other]. *)
Definition iadd_str (other : string) (self : Html) : Html :=
  mkHtml (_inner_html self) (_buffer self +:+ other).

(** The [for] loop of [to_raw_html]; the state is [(return_str, indent)]. *)
Fixpoint render_loop (indent_size : Z) (lines : list _HtmlLine)
    (return_str : string) (level : Z) : outcome (string * Z) :=
  match lines with
  | [] => Return (return_str, level)
  | html_line :: rest =>
      let return_str :=
        return_str +:+
          ((str_mul (str_mul " " indent_size) level +:+ line html_line)
             +:+ nl) in
      let level := (level + Indent.to_int (indent html_line))%Z in
      if (level <? 0)%Z
      then Raise (WriteOutError "Invalid indentation found.")
      else render_loop indent_size rest return_str level
  end.

Definition to_raw_html (indent_size : Z) (self : Html) : outcome string :=
  match render_loop indent_size (_inner_html self) EmptyString 0%Z with
  | Raise e => Raise e
  | Return (return_str, _) =>
      Return (return_str +:+ ((str_mul " " indent_size +:+ _buffer self) +:+ nl))
  end.

(** [Html.__str__] *)
Definition Html_str (self : Html) : outcome string := to_raw_html 2 self.

(** [Html._get_open_and_close_tags]; a [Mapping] is the list of its items in
    iteration order. *)
Definition _get_open_and_close_tags (name : string) (id_ : option string)
    (classes : option (list string))
    (styles attributes : option (list (string * string))) : string * string :=
  let open_tag_content := [name] in
  let open_tag_content :=
    match id_ with
    | Some id_ => open_tag_content ++ ["id=" +:+ id_]
    | None => open_tag_content
    end in
  let open_tag_content :=
    match classes with
    | Some classes =>
        let class_string_joined := str_join " " classes in
        open_tag_content ++ ["class=" +:+ dquote +:+ class_string_joined +:+ dquote]
    | None => open_tag_content
    end in
  let open_tag_content :=
    match styles with
    | Some styles =>
        let style_strings :=
          map (fun kv => fst kv +:+ ": " +:+ snd kv +:+ ";") styles in
        let style_string_joined := str_join " " style_strings in
        open_tag_content ++ ["style=" +:+ dquote +:+ style_string_joined +:+ dquote]
    | None => open_tag_content
    end in
  let open_tag_content :=
    match attributes with
    | Some attributes =>
        open_tag_content ++
          map (fun kv => fst kv +:+ "=" +:+ dquote +:+ snd kv +:+ dquote) attributes
    | None => open_tag_content
    end in
  let open_tag := "<" +:+ str_join " " open_tag_content +:+ ">" in
  let close_tag := "</" +:+ name +:+ ">" in
  (open_tag, close_tag).

(** What [tag] runs before [yield self] ... *)
Definition tag_enter (open_tag : string) : M Html unit :=
  (modify (newline false (AsIndent Indent.nothing)) ;;
   modify (iadd_str open_tag) ;;
   modify (newline false (AsIndent Indent.indent)))%py.

(** ... and in its [finally] block. *)
Definition tag_exit (close_tag : string) : M Html unit :=
  (modify (newline false (AsIndent Indent.dedent)) ;;
   modify (iadd_str close_tag) ;;
   modify (newline false (AsIndent Indent.nothing)))%py.

(** [with self.tag(...): body].  The generator of the context manager is
    resumed (or the body's exception thrown into it) at [yield self], inside
    [try: ... finally: ...]. *)
Definition tag (name : string) (id_ : option string)
    (classes : option (list string))
    (styles attributes : option (list (string * string)))
    (body : M Html unit) : M Html unit :=
  let '(open_tag, close_tag) :=
    _get_open_and_close_tags name id_ classes styles attributes in
  (tag_enter open_tag ;;
   try_finally body (tag_exit close_tag))%py.

Definition enclose_with_tag (name : string) (id_ : option string)
    (classes : option (list string))
    (styles attributes : option (list (string * string)))
    (self : Html) : Html :=
  let '(open_tag, close_tag) :=
    _get_open_and_close_tags name id_ classes styles attributes in
  let self :=
    mkHtml (mk_HtmlLine open_tag Indent.indent :: _inner_html self)
           (_buffer self) in
  let self := newline false (AsIndent Indent.dedent) self in
  let self := iadd_str close_tag self in
  newline false (AsIndent Indent.nothing) self.

Definition open_tag_of (name : string) (id_ : option string)
    (classes : option (list string))
    (styles attributes : option (list (string * string))) : string :=
  fst (_get_open_and_close_tags name id_ classes styles attributes).

Definition close_tag_of (name : string) (id_ : option string)
    (classes : option (list string))
    (styles attributes : option (list (string * string))) : string :=
  snd (_get_open_and_close_tags name id_ classes styles attributes).

(** The state a scope body starts from. *)
Definition entered (open_tag : string) (self : Html) : Html :=
  newline false (AsIndent Indent.indent)
    (iadd_str open_tag (newline false (AsIndent Indent.nothing) self)).

(** The state a scope leaves, from the state its body left. *)
Definition exited (close_tag : string) (self : Html) : Html :=
  newline false (AsIndent Indent.nothing)
    (iadd_str close_tag (newline false (AsIndent Indent.dedent) self)).

(** Scope bodies written with the methods of the class: text writes, line
    commits, nested tag scopes, sequencing, and a [raise]. *)
Inductive stmt :=
| SPass
| SWrite (text : string)
| SNewline (force : bool) (indent : indent_arg)
| STag (name : string) (id_ : option string) (classes : option (list string))
       (styles attributes : option (list (string * string))) (body : stmt)
| SSeq (p q : stmt)
| SRaise (e : exception).

Fixpoint exec (p : stmt) : M Html unit :=
  match p with
  | SPass => ret tt
  | SWrite text => modify (iadd_str text)
  | SNewline force indent => modify (newline force indent)
  | STag name id_ classes styles attributes body =>
      tag name id_ classes styles attributes (exec body)
  | SSeq p q => (exec p ;; exec q)%py
  | SRaise e => raise e
  end.

(** ** The object store *)

Definition loc := positive.
Abbreviation heap := (gmap loc Html).

Definition load (self : loc) : M heap Html :=
  fun h => match h !! self with
           | Some d => (h, Return d)
           | None => (h, Raise (OtherError "no such object"))
           end.

(** Run a method of the object at [self]. *)
Definition on_obj {A} (self : loc) (m : M Html A) : M heap A :=
  fun h => match h !! self with
           | Some d => let '(d', r) := m d in (<[self := d']> h, r)
           | None => (h, Raise (OtherError "no such object"))
           end.

(** [copy.deepcopy(self)]: a new object with its own deque and lines. *)
Definition deepcopy (self : loc) : M heap loc :=
  fun h => match h !! self with
           | Some d =>
               let target := fresh (dom h) in
               (<[target := d]> h, Return target)
           | None => (h, Raise (OtherError "no such object"))
           end.

Definition set_buffer (text : string) (self : Html) : Html :=
  mkHtml (_inner_html self) text.

(** [for line in other._inner_html: ...].  The deque iterator remembers the
    deque's length when it is created and has [counter] items left; every
    [next] first checks that the deque was not appended to since, also when
    [other] is [self]. *)
Fixpoint iadd_loop (self other : loc) (size0 counter index : nat)
  : M heap unit :=
  (d <- load other ;;
   if decide (length (_inner_html d) = size0) then
     match counter with
     | O => ret tt
     | S counter =>
         match _inner_html d !! index with
         | Some html_line =>
             on_obj self (modify (set_buffer (line html_line))) ;;
             on_obj self
               (modify (newline false (AsIndent (indent html_line)))) ;;
             iadd_loop self other size0 counter (S index)
         | None => raise (RuntimeError "deque mutated during iteration")
         end
     end
   else raise (RuntimeError "deque mutated during iteration"))%py.

(** [other: Union[str, Html]] *)
Inductive content :=
| Str (s : string)
| Doc (other : loc).

(** [Html.__iadd__] *)
Definition Html_iadd (self : loc) (other : content) : M heap loc :=
  match other with
  | Str other =>
      (on_obj self (modify (iadd_str other)) ;;
       ret self)%py
  | Doc other =>
      (on_obj self (modify (newline false (AsIndent Indent.nothing))) ;;
       d <- load other ;;
       iadd_loop self other (length (_inner_html d))
                 (length (_inner_html d)) 0 ;;
       d <- load other ;;
       on_obj self (modify (set_buffer (_buffer d))) ;;
       ret self)%py
  end.

(** [Html.__add__] *)
Definition Html_add (self : loc) (other : content) : M heap loc :=
  (target <- deepcopy self ;;
   Html_iadd target other)%py.

(** [to_raw_html] on an object of the store. *)
Definition to_raw_html_obj (indent_size : Z) (self : loc) : M heap string :=
  (d <- load self ;;
   fun h => (h, to_raw_html indent_size d))%py.

(** ** The append of one document to another, as the specification words it

    Commit [self]'s pending text with delta Nothing; for each committed line
    of [other], in order, make its text the pending text and commit it with
    its delta; finally take over [other]'s pending text. *)
Definition commit_line (self : Html) (l : _HtmlLine) : Html :=
  newline false (AsIndent (indent l)) (set_buffer (line l) self).

Definition iadd_html (self other : Html) : Html :=
  let s1 := newline false (AsIndent Indent.nothing) self in
  let s2 := fold_left commit_line (_inner_html other) s1 in
  set_buffer (_buffer other) s2.

(** The committed lines start with a blank line of delta Nothing and have a
    second line. *)
Definition leading_blank (self : Html) : Prop :=
  exists x rest,
    _inner_html self = mk_HtmlLine EmptyString Indent.nothing :: x :: rest.

(** What the append does with one committed line of [other]: a line with
    text becomes a new last line, a line without text only adds its delta to
    the last line. *)
Definition splice_line (lines : list _HtmlLine) (l : _HtmlLine)
  : list _HtmlLine :=
  if decide (line l = EmptyString) then bump_last (indent l) lines
  else lines ++ [l].

(** The running indent level after the first [k] committed lines: start at
    0 and add each line's delta in order. *)
Definition level_after (lines : list _HtmlLine) (k : nat) : Z :=
  fold_left (fun lvl l => (lvl + Indent.to_int (indent l))%Z) (take k lines) 0%Z.

(** The running level that starts at [lvl] and adds the deltas of [lines]. *)
Definition sum_from (lvl : Z) (lines : list _HtmlLine) : Z :=
  fold_left (fun lvl l => (lvl + Indent.to_int (indent l))%Z) lines lvl.

(** No prefix of [lines] takes the running level below zero. *)
Fixpoint nonneg_from (lvl : Z) (lines : list _HtmlLine) : bool :=
  match lines with
  | [] => true
  | l :: rest =>
      let lvl := (lvl + Indent.to_int (indent l))%Z in
      (0 <=? lvl)%Z && nonneg_from lvl rest
  end.

Definition str_concat (parts : list string) : string :=
  foldr String.append EmptyString parts.

(** One emitted line: [indent_size * level] spaces, the text, a newline. *)
Definition emit_line (indent_size level : Z) (text : string) : string :=
  (str_mul (str_mul " " indent_size) level +:+ text) +:+ nl.

(** The committed lines, line [k] printed at the level reached after the
    first [k] lines. *)
Definition render_committed (indent_size : Z) (lines : list _HtmlLine)
  : string :=
  str_concat
    (imap (fun k l => emit_line indent_size (level_after lines k) (line l))
          lines).

(** ** Methods on objects of the store *)

(** [Html(content)]: a new object. *)
Definition new_html (content : init_content) : M heap loc :=
  fun h => let self := fresh (dom h) in
           (<[self := Html_init content]> h, Return self).

(** [with self.tag(...): body], the document being an object of the store
    and the body any computation on the store. *)
Definition tag_obj {A} (self : loc) (name : string) (id_ : option string)
    (classes : option (list string))
    (styles attributes : option (list (string * string)))
    (body : M heap A) : M heap A :=
  let '(open_tag, close_tag) :=
    _get_open_and_close_tags name id_ classes styles attributes in
  (on_obj self (tag_enter open_tag) ;;
   try_finally body (on_obj self (tag_exit close_tag)))%py.

(** [Html.tag_with_content] *)
Definition tag_with_content (self : loc) (content : content)
    (name : string) (id_ : option string) (classes : option (list string))
    (styles attributes : option (list (string * string))) : M heap unit :=
  tag_obj self name id_ classes styles attributes
    (Html_iadd self content ;; ret tt)%py.

(** [Html.html_template]; [return_html += head] rebinds the local name to
    what [__iadd__] returns. *)
Definition html_template (head body : content) : M heap loc :=
  (return_html <- new_html (StrContent "<!DOCTYPE html>") ;;
   tag_obj return_html "html" None None None None
     (return_html <- tag_obj return_html "head" None None None None
                       (Html_iadd return_html head) ;;
      tag_obj return_html "body" None None None None
        (Html_iadd return_html body)))%py.

(** What [self += other] leaves in [self], for [other] a string or a
    document of value [o]. *)
Definition iadd_value (self : Html) (other : string + Html) : Html :=
  match other with
  | inl text => iadd_str text self
  | inr o => iadd_html self o
  end.

(** The value a content denotes in a store. *)
Definition content_value (h : heap) (c : content) : option (string + Html) :=
  match c with
  | Str text => Some (inl text)
  | Doc other => inr <$> h !! other
  end.

(** An optional part of an open tag, with the space that joins it. *)
Definition opt_part (part : option string) : string :=
  match part with
  | Some text => " " +:+ text
  | None => EmptyString
  end.

(** At least level [k] at the end, and never below zero. *)
Definition at_least (k : Z) (self : Html) : Prop :=
  nonneg_from 0 (_inner_html self) = true
  /\ (k <= sum_from 0 (_inner_html self))%Z.

(** No committed line without text has the delta Indent. *)
Definition blank_lines_flat (lines : list _HtmlLine) : Prop :=
  Forall (fun l => line l = EmptyString -> indent l <> Indent.indent) lines.

(** What [html_template] builds, as a value: the scopes [html], [head] and
    [body] around the two appends, on [Html('<!DOCTYPE html>')]. *)
Definition template_value (head body : string + Html) : Html :=
  let return_html := Html_init (StrContent "<!DOCTYPE html>") in
  let return_html := entered "<html>" return_html in
  let return_html := entered "<head>" return_html in
  let return_html := iadd_value return_html head in
  let return_html := exited "</head>" return_html in
  let return_html := entered "<body>" return_html in
  let return_html := iadd_value return_html body in
  let return_html := exited "</body>" return_html in
  exited "</html>" return_html.

(** ** Predicates on bodies and documents *)

(** Bodies whose explicit line commits all carry the delta Nothing. *)
Fixpoint commits_nothing (p : stmt) : bool :=
  match p with
  | SPass | SWrite _ | SRaise _ => true
  | SNewline _ a => bool_decide (coerce_indent a = Indent.nothing)
  | STag _ _ _ _ _ body => commits_nothing body
  | SSeq p q => commits_nothing p && commits_nothing q
  end.

(** No prefix of the committed lines has a negative level, and the last
    committed line does not dedent. *)
Definition balanced (self : Html) : Prop :=
  nonneg_from 0 (_inner_html self) = true
  /\ forall l, last (_inner_html self) = Some l -> indent l <> Indent.dedent.

(** The level the committed lines end at. *)
Definition final_level (self : Html) : Z := sum_from 0 (_inner_html self).

(** Every committed line has text. *)
Definition all_text (self : Html) : Prop :=
  Forall (fun l => line l <> EmptyString) (_inner_html self).

(** The committed lines printed from the level [lvl] on. *)
Definition render_from (indent_size lvl : Z) (lines : list _HtmlLine)
  : string :=
  str_concat
    (imap (fun k l => emit_line indent_size (sum_from lvl (take k lines)) (line l))
          lines).

(** A content that can be appended inside a scope without harm: a string,
    or a document that renders and whose blank lines do not indent. *)
Definition splice_safe (v : string + Html) : Prop :=
  match v with
  | inl _ => True
  | inr d => nonneg_from 0 (_inner_html d) = true
             /\ blank_lines_flat (_inner_html d)
  end.

(** The committed lines start with [l0] and have a second line. *)
Definition starts_with (l0 : _HtmlLine) (self : Html) : Prop :=
  exists x rest, _inner_html self = l0 :: x :: rest.

(** ** Examples *)

Definition empty_html : Html := Html_init NoContent.

(** [with body.tag('div'): with body.tag('p') as h: h += 'Hello World!'] *)
Definition hello_world : Html :=
  fst (tag "div" None None None None
         (tag "p" None None None None
            (modify (iadd_str "Hello World!"))) empty_html).


(** Two objects: [Html('a')] with pending text [b], and a document with the
    line [<p>] (delta Indent) and pending text [c]. *)
Definition two_documents : heap :=
  <[1%positive := mkHtml [mk_HtmlLine "a" Indent.nothing] "b"]>
    (<[2%positive := mkHtml [mk_HtmlLine "<p>" Indent.indent] "c"]> ∅).

(** [h = Html('<div>'); h.newline(indent=1); h += '<p>'; h.newline(indent=1);
    h += 'text']: two levels deep, with pending text. *)
Definition two_levels_deep : Html :=
  iadd_str "text"
    (newline false (AsInt 1)
       (iadd_str "<p>"
          (newline false (AsInt 1) (Html_init (StrContent "<div>"))))).

(** A head document [Html('<title>t</title>')] and the div / p / Hello
    World! document as body. *)
Definition built_documents : heap :=
  <[1%positive := Html_init (StrContent "<title>t</title>")]>
    (<[2%positive := hello_world]> ∅).

(** * Properties *)

(** ** Strings and deltas *)

Lemma str_app_cons (ch : ascii) (a b : string) :
  String ch a +:+ b = String ch (a +:+ b).
Proof. reflexivity. Qed.

Lemma str_app_nil_l (a : string) : EmptyString +:+ a = a.
Proof. reflexivity. Qed.

Lemma str_app_assoc (a b c : string) : (a +:+ b) +:+ c = a +:+ (b +:+ c).
Proof.
  induction a as [|ch a IH]; [reflexivity|].
  rewrite !str_app_cons. now rewrite IH.
Qed.

Lemma str_app_nil_r (a : string) : a +:+ EmptyString = a.
Proof.
  induction a as [|ch a IH]; [reflexivity|].
  rewrite str_app_cons. now rewrite IH.
Qed.

Lemma str_length_zero (s : string) :
  (String.length s =? 0)%nat = true <-> s = EmptyString.
Proof.
  destruct s; simpl; split; intros H; try reflexivity; discriminate.
Qed.

Lemma str_app_nonempty_l (a b : string) :
  a <> EmptyString -> a +:+ b <> EmptyString.
Proof. destruct a; [congruence | rewrite str_app_cons; discriminate]. Qed.

Lemma add_nothing_r (d : Indent.t) : Indent.add d Indent.nothing = d.
Proof. destruct d; reflexivity. Qed.

Lemma add_indent_dedent : Indent.add Indent.indent Indent.dedent = Indent.nothing.
Proof. reflexivity. Qed.

(** ** The line commit *)

Lemma bump_last_snoc (delta : Indent.t) (init : list _HtmlLine) (l : _HtmlLine) :
  bump_last delta (init ++ [l])
  = init ++ [mk_HtmlLine (line l) (Indent.add (indent l) delta)].
Proof.
  unfold bump_last. rewrite length_app. simpl.
  replace (length init + 1 - 1)%nat with (length init + 0)%nat by lia.
  rewrite alter_app_r. reflexivity.
Qed.

Lemma bump_last_length (delta : Indent.t) (lines : list _HtmlLine) :
  length (bump_last delta lines) = length lines.
Proof. unfold bump_last. apply length_alter. Qed.

Lemma newline_merge_cond (force : bool) (self : Html) :
  negb force && (String.length (_buffer self) =? 0)%nat
    && (0 <? length (_inner_html self))%nat = true
  <-> force = false /\ _buffer self = EmptyString /\ _inner_html self <> [].
Proof.
  rewrite !andb_true_iff, negb_true_iff, str_length_zero, Nat.ltb_lt.
  destruct (_inner_html self); simpl; split; intros [[? ?] ?] || intros (? & ? & ?);
    repeat split; try assumption; try congruence; try lia.
Qed.

Lemma newline_merge (a : indent_arg) (init : list _HtmlLine) (l : _HtmlLine) :
  newline false a (mkHtml (init ++ [l]) EmptyString)
  = mkHtml (init ++ [mk_HtmlLine (line l) (Indent.add (indent l) (coerce_indent a))])
           EmptyString.
Proof.
  unfold newline. simpl. rewrite length_app. simpl.
  replace (0 <? length init + 1)%nat with true
    by (symmetry; apply Nat.ltb_lt; lia).
  simpl. now rewrite bump_last_snoc.
Qed.

Lemma newline_append (force : bool) (a : indent_arg) (self : Html) :
  force = true \/ _buffer self <> EmptyString \/ _inner_html self = [] ->
  newline force a self
  = mkHtml (_inner_html self ++ [mk_HtmlLine (_buffer self) (coerce_indent a)])
           EmptyString.
Proof.
  intros H. unfold newline.
  destruct (negb force && (String.length (_buffer self) =? 0)%nat
            && (0 <? length (_inner_html self))%nat) eqn:E; [|reflexivity].
  apply newline_merge_cond in E. destruct E as (? & ? & ?).
  destruct H as [H | [H | H]]; congruence.
Qed.

Lemma newline_unforced_buffer (a : indent_arg) (self : Html) :
  _buffer (newline false a self) = EmptyString.
Proof.
  unfold newline.
  destruct (negb false && _ && _) eqn:E; [|reflexivity].
  apply newline_merge_cond in E. simpl. tauto.
Qed.

Lemma newline_nonempty (force : bool) (a : indent_arg) (self : Html) :
  _inner_html (newline force a self) <> [].
Proof.
  unfold newline.
  destruct (negb force && _ && _) eqn:E; simpl.
  - apply newline_merge_cond in E. destruct E as (_ & _ & Hne).
    intros H. apply Hne. apply (f_equal length) in H.
    rewrite bump_last_length in H. now destruct (_inner_html self).
  - now destruct (_inner_html self).
Qed.

(** C1. The line commit [newline(force, indent)]: when [force] is false, the
    pending buffer is empty and there is a committed line, no line is
    created, the last committed line keeps its text and gets its old delta
    plus the given one ([Indent.__add__]), and the buffer and the other
    lines are unchanged; in every other case the pending text becomes a new
    last line with the given delta and the buffer is reset to empty. *)
Theorem newline_commit (force : bool) (a : indent_arg) (self : Html) :
  (force = false /\ _buffer self = EmptyString /\ _inner_html self <> [] ->
   exists init l,
     _inner_html self = init ++ [l] /\
     newline force a self
     = mkHtml (init ++ [mk_HtmlLine (line l)
                          (Indent.add (indent l) (coerce_indent a))])
              (_buffer self))
  /\
  (~ (force = false /\ _buffer self = EmptyString /\ _inner_html self <> []) ->
   newline force a self
   = mkHtml (_inner_html self ++ [mk_HtmlLine (_buffer self) (coerce_indent a)])
            EmptyString).
Proof.
  split.
  - intros (Hf & Hb & Hl).
    destruct self as [lines buf]; simpl in *; subst.
    destruct lines as [|x xs] using rev_ind; [congruence|].
    exists xs, x. split; [reflexivity | apply newline_merge].
  - intros Hn. apply newline_append.
    destruct force; [now left | right].
    destruct (decide (_buffer self = EmptyString)) as [Hb|Hb]; [right | now left].
    destruct (_inner_html self) eqn:E; [reflexivity|].
    exfalso. apply Hn. repeat split; congruence.
Qed.

Lemma newline_commit_witness :
  newline false (AsIndent Indent.dedent)
    (mkHtml [mk_HtmlLine "<p>" Indent.indent] EmptyString)
  = mkHtml [mk_HtmlLine "<p>" Indent.nothing] EmptyString
  /\
  newline false (AsInt 1) (mkHtml [mk_HtmlLine "<p>" Indent.indent] "text")
  = mkHtml [mk_HtmlLine "<p>" Indent.indent; mk_HtmlLine "text" Indent.indent]
           EmptyString.
Proof.
  split.
  - destruct (proj1 (newline_commit false (AsIndent Indent.dedent)
                       (mkHtml [mk_HtmlLine "<p>" Indent.indent] EmptyString)))
      as (init & l & Hsplit & Heq).
    + simpl. repeat split; congruence.
    + rewrite Heq. simpl in Hsplit.
      destruct init as [|y [|z init]]; simpl in Hsplit; inversion Hsplit; subst;
        try reflexivity.
  - apply (proj2 (newline_commit false (AsInt 1)
                    (mkHtml [mk_HtmlLine "<p>" Indent.indent] "text"))).
    simpl. intros (_ & H & _). discriminate.
Defined.

(** ** The integer conversion *)

(** C2 (as amended). [Indent.from_int] signals no error on any integer: it
    takes the sign.  Every positive integer gives Indent, every negative one
    Dedent and 0 gives Nothing, so that [to_int (from_int n)] is the sign of
    [n]; on -1, 0 and 1 it is the conversion the contract describes. *)
Theorem from_int_sign (n : Z) :
  Indent.to_int (Indent.from_int n) = Z.sgn n
  /\ Indent.from_int (-1) = Indent.dedent
  /\ Indent.from_int 0 = Indent.nothing
  /\ Indent.from_int 1 = Indent.indent.
Proof.
  split; [|repeat split].
  unfold Indent.from_int.
  destruct (Z.gtb_spec n 0); [simpl; lia|].
  destruct (Z.ltb_spec n 0); simpl; lia.
Qed.

(** C2 (as stated) fails: 2 is outside -1..1, where the contract asks for an
    error, and the conversion returns Indent. *)
Lemma from_int_out_of_range :
  from_int_partial 2 = None /\ Indent.from_int 2 = Indent.indent.
Proof. split; reflexivity. Qed.

Lemma from_int_in_range (n : Z) (i : Indent.t) :
  from_int_partial n = Some i -> Indent.from_int n = i.
Proof.
  unfold from_int_partial.
  destruct (Z.eqb_spec n (-1)); [subst; now intros [= <-]|].
  destruct (Z.eqb_spec n 0); [subst; now intros [= <-]|].
  destruct (Z.eqb_spec n 1); [subst; now intros [= <-]|].
  discriminate.
Qed.

Lemma to_int_from_int (i : Indent.t) : Indent.from_int (Indent.to_int i) = i.
Proof. destruct i; reflexivity. Qed.

(** ** Rendering *)

Lemma render_loop_app (n : Z) (l1 l2 : list _HtmlLine) (acc : string) (lvl : Z) :
  render_loop n (l1 ++ l2) acc lvl
  = match render_loop n l1 acc lvl with
    | Return (s, lvl') => render_loop n l2 s lvl'
    | Raise e => Raise e
    end.
Proof.
  revert acc lvl. induction l1 as [|x l1 IH]; intros acc lvl; simpl.
  - reflexivity.
  - destruct (_ <? 0)%Z; [reflexivity | apply IH].
Qed.

(** C3 at the empty document and at a document two levels deep, rendered
    with an indent size of 2: the running level at the final line is 0,
    respectively 2, which would be no space, respectively four, and
    [to_raw_html] puts [indent_size] spaces there both times. *)
Theorem to_raw_html_final_line :
  (to_raw_html 2 empty_html = Return ("  " +:+ nl)
   /\ render_loop 2 (_inner_html empty_html) EmptyString 0
      = Return (EmptyString, 0%Z)
   /\ to_raw_html 2 empty_html
      <> Return (emit_line 2 0 (_buffer empty_html)))
  /\
  (to_raw_html 2 two_levels_deep
   = Return ("<div>" +:+ nl +:+ "  <p>" +:+ nl +:+ "  text" +:+ nl)
   /\ render_loop 2 (_inner_html two_levels_deep) EmptyString 0
      = Return ("<div>" +:+ nl +:+ "  <p>" +:+ nl, 2%Z)
   /\ to_raw_html 2 two_levels_deep
      <> Return ("<div>" +:+ nl +:+ "  <p>" +:+ nl
                 +:+ emit_line 2 2 (_buffer two_levels_deep))).
Proof. repeat split; vm_compute; discriminate. Qed.

(** The final line always has [indent_size] spaces, whatever the level. *)
Lemma to_raw_html_final_prefix (n : Z) (self : Html) (s : string) (lvl : Z) :
  render_loop n (_inner_html self) EmptyString 0 = Return (s, lvl) ->
  to_raw_html n self = Return (s +:+ ((str_mul " " n +:+ _buffer self) +:+ nl)).
Proof. intros H. unfold to_raw_html. now rewrite H. Qed.

Lemma sum_from_cons (lvl : Z) (l : _HtmlLine) (rest : list _HtmlLine) :
  sum_from lvl (l :: rest) = sum_from (lvl + Indent.to_int (indent l)) rest.
Proof. reflexivity. Qed.

Lemma level_after_sum_from (lines : list _HtmlLine) (k : nat) :
  level_after lines k = sum_from 0 (take k lines).
Proof. reflexivity. Qed.

(** The loop either raises at the first negative level or returns the
    accumulated text and the level summed over all lines. *)
Lemma render_loop_spec (n : Z) (lines : list _HtmlLine) (acc : string) (lvl : Z) :
  render_loop n lines acc lvl
  = if nonneg_from lvl lines
    then Return
           (acc +:+ str_concat
                      (imap (fun k l =>
                               emit_line n (sum_from lvl (take k lines)) (line l))
                            lines),
            sum_from lvl lines)
    else Raise (WriteOutError "Invalid indentation found.").
Proof.
  revert acc lvl. induction lines as [|x rest IH]; intros acc lvl.
  - simpl. now rewrite str_app_nil_r.
  - cbn [render_loop nonneg_from].
    destruct (Z.ltb_spec (lvl + Indent.to_int (indent x)) 0) as [Hneg|Hpos].
    + replace (0 <=? lvl + Indent.to_int (indent x))%Z with false
        by (symmetry; apply Z.leb_gt; lia).
      reflexivity.
    + replace (0 <=? lvl + Indent.to_int (indent x))%Z with true
        by (symmetry; apply Z.leb_le; lia).
      rewrite IH. cbn [andb].
      destruct (nonneg_from _ rest); [|reflexivity].
      rewrite imap_cons. cbn [str_concat foldr].
      rewrite sum_from_cons. f_equal. f_equal.
      rewrite str_app_assoc. reflexivity.
Qed.

Lemma nonneg_from_iff (lvl : Z) (lines : list _HtmlLine) :
  nonneg_from lvl lines = true
  <-> forall k, (1 <= k <= length lines)%nat ->
                (0 <= sum_from lvl (take k lines))%Z.
Proof.
  revert lvl. induction lines as [|x rest IH]; intros lvl.
  - simpl. split; [intros _ k Hk; lia | reflexivity].
  - cbn [nonneg_from]. rewrite andb_true_iff, Z.leb_le, IH. split.
    + intros [H0 Hrest] k Hk. destruct k as [|k]; [lia|].
      cbn [take]. rewrite sum_from_cons.
      destruct k as [|k]; [now destruct rest|].
      apply Hrest. simpl in Hk. lia.
    + intros H. split.
      * specialize (H 1%nat). simpl in H.
        replace (take 0 rest) with (@nil _HtmlLine) in H by now destruct rest.
        apply H. lia.
      * intros k Hk. specialize (H (S k)). cbn [take] in H.
        rewrite sum_from_cons in H. apply H. simpl. lia.
Qed.

Lemma nonneg_from_false (lvl : Z) (lines : list _HtmlLine) :
  nonneg_from lvl lines = false ->
  exists k, (1 <= k <= length lines)%nat /\ (sum_from lvl (take k lines) < 0)%Z.
Proof.
  revert lvl. induction lines as [|x rest IH]; intros lvl; [discriminate|].
  cbn [nonneg_from]. rewrite andb_false_iff, Z.leb_gt. intros [Hneg | Hrest].
  - exists 1%nat. split; [simpl; lia|].
    cbn [take]. rewrite sum_from_cons. now destruct rest.
  - destruct (IH _ Hrest) as (k & Hk & Hlt).
    exists (S k). split; [simpl; lia|].
    cbn [take]. now rewrite sum_from_cons.
Qed.

Lemma nonneg_from_zero_iff (lines : list _HtmlLine) :
  nonneg_from 0 lines = true
  <-> forall k, (k <= length lines)%nat -> (0 <= level_after lines k)%Z.
Proof.
  rewrite nonneg_from_iff. split; intros H k Hk.
  - destruct k as [|k]; [now destruct lines|].
    rewrite level_after_sum_from. apply H. lia.
  - rewrite <- level_after_sum_from. apply H. lia.
Qed.

Lemma to_raw_html_spec (n : Z) (self : Html) :
  to_raw_html n self
  = if nonneg_from 0 (_inner_html self)
    then Return (render_committed n (_inner_html self)
                 +:+ ((str_mul " " n +:+ _buffer self) +:+ nl))
    else Raise (WriteOutError "Invalid indentation found.").
Proof.
  unfold to_raw_html. rewrite render_loop_spec.
  destruct (nonneg_from 0 (_inner_html self)); reflexivity.
Qed.

(** C4. [to_raw_html] raises [WriteOutError] exactly when the running level
    (from 0, adding each committed line's delta in order) is negative after
    some prefix of the committed lines, and raises nothing else; when no
    prefix is negative it returns, with every committed line printed at the
    unclamped running level. *)
Theorem to_raw_html_raises_iff (n : Z) (self : Html) :
  ((exists msg, to_raw_html n self = Raise (WriteOutError msg))
   <-> exists k, (k <= length (_inner_html self))%nat
                 /\ (level_after (_inner_html self) k < 0)%Z)
  /\ (forall e, to_raw_html n self = Raise e -> exists msg, e = WriteOutError msg)
  /\ ((forall k, (k <= length (_inner_html self))%nat ->
                 (0 <= level_after (_inner_html self) k)%Z) ->
      to_raw_html n self
      = Return (render_committed n (_inner_html self)
                +:+ ((str_mul " " n +:+ _buffer self) +:+ nl))).
Proof.
  rewrite to_raw_html_spec.
  destruct (nonneg_from 0 (_inner_html self)) eqn:E.
  - pose proof (proj1 (nonneg_from_zero_iff _) E) as Hok.
    repeat split.
    + intros [msg H]. discriminate.
    + intros (k & Hk & Hneg). specialize (Hok k Hk). lia.
    + intros e H. discriminate.
  - repeat split.
    + intros _. destruct (nonneg_from_false _ _ E) as (k & Hk & Hneg).
      exists k. split; [lia | exact Hneg].
    + intros _. eexists. reflexivity.
    + intros e [= <-]. eexists. reflexivity.
    + intros Hok. apply nonneg_from_zero_iff in Hok. congruence.
Qed.

Lemma to_raw_html_raises_iff_witness :
  (exists msg,
      to_raw_html 2 (mkHtml [mk_HtmlLine "</p>" Indent.dedent] EmptyString)
      = Raise (WriteOutError msg))
  /\ to_raw_html 2 (mkHtml [mk_HtmlLine "<p>" Indent.indent] "text")
     = Return ("<p>" +:+ nl +:+ "  text" +:+ nl).
Proof.
  split.
  - apply (proj2 (proj1 (to_raw_html_raises_iff 2
                           (mkHtml [mk_HtmlLine "</p>" Indent.dedent] EmptyString)))).
    exists 1%nat. split; [simpl; lia | reflexivity].
  - apply (proj2 (proj2 (to_raw_html_raises_iff 2
                           (mkHtml [mk_HtmlLine "<p>" Indent.indent] "text")))).
    intros [|[|k]] Hk; [now vm_compute | now vm_compute | simpl in Hk; lia].
Defined.

(** ** Tag scopes *)

Lemma str_app_nonempty_r (a b : string) :
  b <> EmptyString -> a +:+ b <> EmptyString.
Proof.
  destruct a; [now rewrite str_app_nil_l | rewrite str_app_cons; discriminate].
Qed.

Section TagScope.

Variables (name : string) (id_ : option string)
          (classes : option (list string))
          (styles attributes : option (list (string * string))).

Local Abbreviation open_tag :=
  (open_tag_of name id_ classes styles attributes).
Local Abbreviation close_tag :=
  (close_tag_of name id_ classes styles attributes).

Lemma open_tag_nonempty : open_tag <> EmptyString.
Proof. unfold open_tag_of, _get_open_and_close_tags. cbn [fst]. discriminate. Qed.

Lemma close_tag_nonempty : close_tag <> EmptyString.
Proof. unfold close_tag_of, _get_open_and_close_tags. cbn [snd]. discriminate. Qed.

Lemma tags_pair :
  _get_open_and_close_tags name id_ classes styles attributes
  = (open_tag, close_tag).
Proof. unfold open_tag_of, close_tag_of. now destruct _get_open_and_close_tags. Qed.

Lemma tag_unfold (body : M Html unit) (self : Html) :
  tag name id_ classes styles attributes body self
  = (exited close_tag (fst (body (entered open_tag self))),
     snd (body (entered open_tag self))).
Proof.
  unfold tag. rewrite tags_pair.
  unfold tag_enter, tag_exit, bind, modify, try_finally, entered, exited.
  now destruct (body _) as [s r].
Qed.

Lemma exited_eq (self : Html) :
  exited close_tag self
  = mkHtml (_inner_html (newline false (AsIndent Indent.dedent) self)
            ++ [mk_HtmlLine close_tag Indent.nothing])
           EmptyString.
Proof.
  unfold exited. rewrite newline_append.
  - simpl. now rewrite newline_unforced_buffer.
  - right; left. simpl. apply str_app_nonempty_r, close_tag_nonempty.
Qed.

Lemma entered_eq (self : Html) :
  entered open_tag self
  = mkHtml (_inner_html (newline false (AsIndent Indent.nothing) self)
            ++ [mk_HtmlLine open_tag Indent.indent])
           EmptyString.
Proof.
  unfold entered. rewrite newline_append.
  - simpl. now rewrite newline_unforced_buffer.
  - right; left. simpl. apply str_app_nonempty_r, open_tag_nonempty.
Qed.

(** C5. A tag scope first commits the pending text with delta Nothing,
    writes the open tag and commits it with delta Indent; the body runs on
    that state; then, whether the body returned or raised, the scope
    commits the pending text with delta Dedent, writes the close tag and
    commits it with delta Nothing, once, and passes on the body's outcome.
    The document it leaves ends with the close-tag line and has an empty
    pending buffer. *)
Theorem tag_scope_protocol (body : M Html unit) (self : Html) :
  let start :=
    newline false (AsIndent Indent.indent)
      (iadd_str open_tag (newline false (AsIndent Indent.nothing) self)) in
  let left := fst (body start) in
  let final :=
    newline false (AsIndent Indent.nothing)
      (iadd_str close_tag (newline false (AsIndent Indent.dedent) left)) in
  tag name id_ classes styles attributes body self = (final, snd (body start))
  /\ last (_inner_html final) = Some (mk_HtmlLine close_tag Indent.nothing)
  /\ _buffer final = EmptyString.
Proof.
  cbv zeta. split; [apply tag_unfold|].
  fold (entered open_tag self).
  fold (exited close_tag (fst (body (entered open_tag self)))).
  rewrite exited_eq. simpl. split; [apply last_snoc | reflexivity].
Qed.

End TagScope.

Lemma render_loop_level_nonneg (n : Z) (lines : list _HtmlLine)
    (acc s : string) (lvl lvl' : Z) :
  render_loop n lines acc lvl = Return (s, lvl') -> (0 <= lvl)%Z -> (0 <= lvl')%Z.
Proof.
  revert acc lvl. induction lines as [|x rest IH]; intros acc lvl; simpl.
  - intros [= _ <-]. trivial.
  - destruct (Z.ltb_spec (lvl + Indent.to_int (indent x)) 0) as [Hneg|Hpos];
      [discriminate|].
    intros Hloop _. eapply IH; eassumption.
Qed.

Lemma newline_nothing_id (self : Html) :
  _inner_html self <> [] -> _buffer self = EmptyString ->
  newline false (AsIndent Indent.nothing) self = self.
Proof.
  intros Hl Hb. destruct self as [lines buf]. simpl in *. subst buf.
  destruct lines as [|x xs _] using rev_ind; [congruence|].
  rewrite newline_merge. simpl. rewrite add_nothing_r. now destruct x.
Qed.

Section EmptyScope.

Variables (name : string) (id_ : option string)
          (classes : option (list string))
          (styles attributes : option (list (string * string))).

Local Abbreviation open_tag :=
  (open_tag_of name id_ classes styles attributes).
Local Abbreviation close_tag :=
  (close_tag_of name id_ classes styles attributes).

(** A scope closed at once leaves, after whatever the entry commit did,
    the open-tag line and the close-tag line, both with delta Nothing. *)
Lemma empty_scope_lines (self : Html) :
  tag name id_ classes styles attributes (ret tt) self
  = (mkHtml (_inner_html (newline false (AsIndent Indent.nothing) self)
             ++ [mk_HtmlLine open_tag Indent.nothing;
                 mk_HtmlLine close_tag Indent.nothing])
            EmptyString,
     Return tt).
Proof.
  rewrite tag_unfold. unfold ret. cbn [fst snd].
  rewrite exited_eq, entered_eq, newline_merge. simpl.
  now rewrite <- app_assoc.
Qed.

(** Two lines at one level: after [before], both are printed at the level
    [before] ends at. *)
Lemma render_pair_same_level (n : Z) (before : list _HtmlLine) :
  render_loop n (before ++ [mk_HtmlLine open_tag Indent.nothing;
                            mk_HtmlLine close_tag Indent.nothing])
              EmptyString 0
  = match render_loop n before EmptyString 0 with
    | Return (s, lvl) =>
        Return ((s +:+ emit_line n lvl open_tag) +:+ emit_line n lvl close_tag,
                lvl)
    | Raise e => Raise e
    end.
Proof.
  rewrite render_loop_app.
  destruct (render_loop n before EmptyString 0) as [[s lvl]|e] eqn:E;
    [|reflexivity].
  assert (0 <= lvl)%Z as Hlvl
    by (eapply render_loop_level_nonneg; [exact E | lia]).
  cbn [render_loop line indent Indent.to_int]. rewrite !Z.add_0_r.
  replace (lvl <? 0)%Z with false by (symmetry; apply Z.ltb_ge; lia).
  reflexivity.
Qed.

(** C8 (as amended). On a document that has a committed line and an empty
    pending buffer, a tag scope closed at once adds exactly two committed
    lines, the open-tag line and the close-tag line; their deltas sum to
    zero, and rendering prints both at the same level, the one the
    earlier lines end at. *)
Theorem empty_scope_two_lines (self : Html) :
  _inner_html self <> [] -> _buffer self = EmptyString ->
  exists lo lc,
    tag name id_ classes styles attributes (ret tt) self
    = (mkHtml (_inner_html self ++ [lo; lc]) EmptyString, Return tt)
    /\ line lo = open_tag /\ line lc = close_tag
    /\ (Indent.to_int (indent lo) + Indent.to_int (indent lc) = 0)%Z
    /\ forall n,
        to_raw_html n (mkHtml (_inner_html self ++ [lo; lc]) EmptyString)
        = match render_loop n (_inner_html self) EmptyString 0 with
          | Return (s, lvl) =>
              Return (((s +:+ emit_line n lvl open_tag)
                         +:+ emit_line n lvl close_tag)
                        +:+ ((str_mul " " n +:+ EmptyString) +:+ nl))
          | Raise e => Raise e
          end.
Proof.
  intros Hl Hb.
  exists (mk_HtmlLine open_tag Indent.nothing),
         (mk_HtmlLine close_tag Indent.nothing).
  rewrite empty_scope_lines, newline_nothing_id by assumption.
  repeat split. intros n.
  unfold to_raw_html. cbn [_inner_html _buffer].
  rewrite render_pair_same_level.
  now destruct (render_loop n (_inner_html self) EmptyString 0) as [[s lvl]|e].
Qed.

End EmptyScope.

Lemma empty_scope_two_lines_witness :
  exists lo lc,
    tag "div" None None None None (ret tt) (Html_init (StrContent "<!DOCTYPE html>"))
    = (mkHtml (_inner_html (Html_init (StrContent "<!DOCTYPE html>")) ++ [lo; lc])
              EmptyString, Return tt)
    /\ line lo = "<div>" /\ line lc = "</div>".
Proof.
  destruct (empty_scope_two_lines "div" None None None None
              (Html_init (StrContent "<!DOCTYPE html>")))
    as (lo & lc & Htag & Hlo & Hlc & _).
  - simpl. discriminate.
  - reflexivity.
  - exists lo, lc. repeat split; assumption.
Defined.

(** C8 (as stated) fails on the fresh empty document: the scope adds three
    committed lines, the first one blank. *)
Lemma empty_scope_on_fresh_document :
  _inner_html (fst (tag "div" None None None None (ret tt) empty_html))
  = [mk_HtmlLine EmptyString Indent.nothing;
     mk_HtmlLine "<div>" Indent.nothing;
     mk_HtmlLine "</div>" Indent.nothing]
  /\ length (_inner_html (fst (tag "div" None None None None (ret tt) empty_html)))
     <> (length (_inner_html empty_html) + 2)%nat.
Proof. split; [reflexivity | vm_compute; discriminate]. Qed.

(** ** The end-to-end example *)

(** C9 (as amended). The div / p / Hello World! document renders, with an
    indent size of 2, as a leading empty line, then the five lines at 0, 2,
    4, 2 and 0 spaces, then one final line for the empty pending buffer that
    holds spaces only. *)
Theorem hello_world_render :
  exists k,
    to_raw_html 2 hello_world
    = Return (nl +:+ "<div>" +:+ nl +:+ "  <p>" +:+ nl
              +:+ "    Hello World!" +:+ nl +:+ "  </p>" +:+ nl
              +:+ "</div>" +:+ nl +:+ str_mul " " k +:+ nl).
Proof. exists 2%Z. reflexivity. Qed.

(** C9 (as stated) fails: the rendered text does not start with the [<div>]
    line, whatever follows the five lines. *)
Lemma hello_world_no_leading_div :
  ~ exists rest,
      to_raw_html 2 hello_world
      = Return ("<div>" +:+ nl +:+ "  <p>" +:+ nl
                +:+ "    Hello World!" +:+ nl +:+ "  </p>" +:+ nl
                +:+ "</div>" +:+ nl +:+ rest).
Proof. intros [rest H]. vm_compute in H. discriminate. Qed.

(** ** The leading blank line of a fresh document *)

(** Whatever the methods preserve, a scope body built from them preserves,
    whether it returns or raises. *)
Lemma exec_preserves (P : Html -> Prop) :
  (forall force a s, P s -> P (newline force a s)) ->
  (forall text s, P s -> P (iadd_str text s)) ->
  forall p s, P s -> P (fst (exec p s)).
Proof.
  intros Hnl Hw. induction p as [| | | ? ? ? ? ? body IH | p IHp q IHq |];
    intros s Hs; cbn [exec].
  - exact Hs.
  - now apply Hw.
  - now apply Hnl.
  - rewrite tag_unfold. cbn [fst]. unfold exited.
    apply Hnl, Hw, Hnl, IH. unfold entered. now apply Hnl, Hw, Hnl.
  - unfold bind. specialize (IHp s Hs).
    destruct (exec p s) as [s' [[]|e]]; cbn [fst] in *; [now apply IHq | exact IHp].
  - exact Hs.
Qed.

Lemma bump_last_cons (delta : Indent.t) (b x : _HtmlLine) (rest : list _HtmlLine) :
  bump_last delta (b :: x :: rest) = b :: bump_last delta (x :: rest).
Proof.
  unfold bump_last. simpl. now rewrite Nat.sub_0_r.
Qed.

Lemma leading_blank_newline (force : bool) (a : indent_arg) (s : Html) :
  leading_blank s -> leading_blank (newline force a s).
Proof.
  intros (x & rest & Hs). unfold newline, leading_blank. rewrite Hs.
  destruct (negb force && _ && _); simpl.
  - rewrite bump_last_cons.
    destruct (bump_last (coerce_indent a) (x :: rest)) as [|y ys] eqn:E.
    + apply (f_equal length) in E. rewrite bump_last_length in E. discriminate.
    + eauto.
  - eauto.
Qed.

Lemma leading_blank_iadd_str (text : string) (s : Html) :
  leading_blank s -> leading_blank (iadd_str text s).
Proof. intros H. exact H. Qed.

(** C10. On the document with no committed line and an empty buffer, an
    unforced commit appends an empty committed line.  So the first tag
    scope of a fresh document hands its body a document whose committed
    lines are a blank line of delta Nothing and the open-tag line, and
    after any body of writes, commits, nested scopes and raises the
    committed lines still begin with that blank line. *)
Theorem fresh_document_leading_blank (a : indent_arg)
    (name : string) (id_ : option string) (classes : option (list string))
    (styles attributes : option (list (string * string))) (p : stmt) :
  newline false a empty_html
  = mkHtml [mk_HtmlLine EmptyString (coerce_indent a)] EmptyString
  /\ entered (open_tag_of name id_ classes styles attributes) empty_html
     = mkHtml [mk_HtmlLine EmptyString Indent.nothing;
               mk_HtmlLine (open_tag_of name id_ classes styles attributes)
                           Indent.indent]
              EmptyString
  /\ head (_inner_html
             (fst (tag name id_ classes styles attributes (exec p) empty_html)))
     = Some (mk_HtmlLine EmptyString Indent.nothing).
Proof.
  split; [reflexivity|]. split; [now rewrite entered_eq|].
  rewrite tag_unfold. cbn [fst].
  assert (leading_blank
            (exited (close_tag_of name id_ classes styles attributes)
               (fst (exec p (entered (open_tag_of name id_ classes styles attributes)
                                     empty_html)))))
    as (x & rest & H).
  { unfold exited.
    apply leading_blank_newline, leading_blank_iadd_str, leading_blank_newline.
    apply exec_preserves;
      [exact leading_blank_newline | exact leading_blank_iadd_str |].
    rewrite entered_eq. unfold leading_blank. simpl. eauto. }
  now rewrite H.
Qed.

(** ** Appending a document *)

Lemma bind_return {S A B} (m : M S A) (k : A -> M S B) (s s' : S) (a : A) :
  m s = (s', Return a) -> bind m k s = k a s'.
Proof. intros H. unfold bind. now rewrite H. Qed.

Lemma load_some (h : heap) (l : loc) (d : Html) :
  h !! l = Some d -> load l h = (h, Return d).
Proof. intros H. unfold load. now rewrite H. Qed.

Lemma on_obj_modify (h : heap) (l : loc) (d : Html) (f : Html -> Html) :
  h !! l = Some d -> on_obj l (modify f) h = (<[l := f d]> h, Return tt).
Proof. intros H. unfold on_obj. now rewrite H. Qed.

(** With [other] a different object, the loop commits the lines of [other]
    from [index] on, one after the other, and never raises. *)
Lemma iadd_loop_distinct (self other : loc) (o : Html) :
  self <> other ->
  forall counter index s (h : heap),
    h !! self = Some s -> h !! other = Some o ->
    (index + counter)%nat = length (_inner_html o) ->
    iadd_loop self other (length (_inner_html o)) counter index h
    = (<[self := fold_left commit_line (drop index (_inner_html o)) s]> h,
       Return tt).
Proof.
  intros Hne. induction counter as [|counter IH]; intros index s h Hs Ho Hlen;
    cbn [iadd_loop].
  - rewrite (bind_return _ _ _ _ _ (load_some _ _ _ Ho)).
    rewrite decide_True by reflexivity.
    rewrite drop_ge by lia. simpl. unfold ret.
    now rewrite insert_id.
  - rewrite (bind_return _ _ _ _ _ (load_some _ _ _ Ho)).
    rewrite decide_True by reflexivity.
    destruct (lookup_lt_is_Some_2 (_inner_html o) index ltac:(lia)) as [l Hl].
    rewrite Hl.
    rewrite (bind_return _ _ _ _ _ (on_obj_modify _ _ _ _ Hs)).
    rewrite (bind_return _ _ _ _ _
               (on_obj_modify _ _ _ _ (lookup_insert_eq h self _))).
    rewrite insert_insert_eq.
    rewrite (IH (S index) (commit_line s l)).
    + rewrite insert_insert_eq. now rewrite (drop_S _ _ _ Hl).
    + apply lookup_insert_eq.
    + now rewrite lookup_insert_ne.
    + lia.
Qed.

Lemma iadd_distinct (h : heap) (self other : loc) (s o : Html) :
  self <> other -> h !! self = Some s -> h !! other = Some o ->
  Html_iadd self (Doc other) h = (<[self := iadd_html s o]> h, Return self).
Proof.
  intros Hne Hs Ho. unfold Html_iadd.
  rewrite (bind_return _ _ _ _ _ (on_obj_modify _ _ _ _ Hs)).
  assert (<[self := newline false (AsIndent Indent.nothing) s]> h !! other
          = Some o) as Ho1 by now rewrite lookup_insert_ne.
  rewrite (bind_return _ _ _ _ _ (load_some _ _ _ Ho1)).
  erewrite bind_return; cycle 1.
  { apply iadd_loop_distinct; [exact Hne | apply lookup_insert_eq | exact Ho1 | lia]. }
  rewrite insert_insert_eq, drop_0.
  assert (<[self := fold_left commit_line (_inner_html o)
                      (newline false (AsIndent Indent.nothing) s)]> h !! other
          = Some o) as Ho2 by now rewrite lookup_insert_ne.
  rewrite (bind_return _ _ _ _ _ (load_some _ _ _ Ho2)).
  rewrite (bind_return _ _ _ _ _
             (on_obj_modify _ _ _ _ (lookup_insert_eq h self _))).
  now rewrite insert_insert_eq.
Qed.

Lemma commit_line_lines (s : Html) (l : _HtmlLine) :
  _inner_html s <> [] ->
  _inner_html (commit_line s l) = splice_line (_inner_html s) l.
Proof.
  intros Hne. unfold commit_line, splice_line. destruct (decide (line l = EmptyString)) as [He|He].
  - unfold newline. simpl. rewrite He. simpl.
    destruct (_inner_html s); [congruence | reflexivity].
  - rewrite newline_append by (right; left; exact He).
    simpl. now destruct l.
Qed.

Lemma splice_line_nonempty (lines : list _HtmlLine) (l : _HtmlLine) :
  lines <> [] -> splice_line lines l <> [].
Proof.
  intros Hne. unfold splice_line. destruct (decide _).
  - intros H. apply (f_equal length) in H. rewrite bump_last_length in H.
    now destruct lines.
  - now destruct lines.
Qed.

Lemma fold_commit_lines (ls : list _HtmlLine) (s : Html) :
  _inner_html s <> [] ->
  _inner_html (fold_left commit_line ls s)
  = fold_left splice_line ls (_inner_html s).
Proof.
  revert s. induction ls as [|l ls IH]; intros s Hne; [reflexivity|].
  simpl. rewrite IH; rewrite commit_line_lines by assumption.
  - reflexivity.
  - now apply splice_line_nonempty.
Qed.

Lemma fold_splice_with_text (ls acc : list _HtmlLine) :
  Forall (fun l => line l <> EmptyString) ls ->
  fold_left splice_line ls acc = acc ++ ls.
Proof.
  revert acc. induction ls as [|l ls IH]; intros acc Hall.
  - now rewrite app_nil_r.
  - inversion Hall as [|? ? Hl Hls]; subst. simpl. rewrite IH by assumption.
    unfold splice_line. rewrite decide_False by assumption.
    now rewrite <- app_assoc.
Qed.

(** C6 (as amended). With [self] and [other] two different objects:
    [self += other]
    commits [self]'s pending text with delta Nothing, then for each
    committed line of [other] in order makes that line's text the pending
    text and commits it with that line's delta, and finally takes
    [other]'s pending text as its own; [other] and every other object are
    untouched.  Each line of [other] that has text is thereby appended with
    its text and delta, and each line without text is not appended: its
    delta is added to the line before it.  When every committed line of
    [other] has text, the committed lines of [other] follow, unchanged,
    those [self] has after the first commit. *)
Theorem iadd_document (h : heap) (self other : loc) (s o : Html) :
  self <> other -> h !! self = Some s -> h !! other = Some o ->
  Html_iadd self (Doc other) h = (<[self := iadd_html s o]> h, Return self)
  /\ _buffer (iadd_html s o) = _buffer o
  /\ _inner_html (iadd_html s o)
     = fold_left splice_line (_inner_html o)
         (_inner_html (newline false (AsIndent Indent.nothing) s))
  /\ (Forall (fun l => line l <> EmptyString) (_inner_html o) ->
      _inner_html (iadd_html s o)
      = _inner_html (newline false (AsIndent Indent.nothing) s) ++ _inner_html o).
Proof.
  intros Hne Hs Ho. split; [now apply iadd_distinct|].
  split; [reflexivity|].
  assert (_inner_html (iadd_html s o)
          = fold_left splice_line (_inner_html o)
              (_inner_html (newline false (AsIndent Indent.nothing) s))) as Hfold.
  { unfold iadd_html. simpl. apply fold_commit_lines, newline_nonempty. }
  split; [exact Hfold|].
  intros Hall. rewrite Hfold. now apply fold_splice_with_text.
Qed.

Lemma iadd_document_witness :
  Html_iadd 1%positive (Doc 2%positive) two_documents
  = (<[1%positive :=
         mkHtml [mk_HtmlLine "a" Indent.nothing; mk_HtmlLine "b" Indent.nothing;
                 mk_HtmlLine "<p>" Indent.indent] "c"]> two_documents,
     Return 1%positive).
Proof.
  apply (proj1 (iadd_document two_documents 1%positive 2%positive
                  (mkHtml [mk_HtmlLine "a" Indent.nothing] "b")
                  (mkHtml [mk_HtmlLine "<p>" Indent.indent] "c")
                  ltac:(discriminate) eq_refl eq_refl)).
Defined.

(** C6 (as stated) fails: appending [Html(['', 'b'])] to [Html('a')] does
    not splice the two committed lines of [other] into [self]; the line
    without text is dropped. *)
Lemma iadd_drops_line_without_text :
  let self := Html_init (StrContent "a") in
  let other := Html_init (SeqContent [EmptyString; "b"]) in
  let h : heap := <[1%positive := self]> (<[2%positive := other]> ∅) in
  exists result,
    fst (Html_iadd 1%positive (Doc 2%positive) h) !! 1%positive = Some result
    /\ _inner_html result
       = [mk_HtmlLine "a" Indent.nothing; mk_HtmlLine "b" Indent.nothing]
    /\ _inner_html result
       <> _inner_html (newline false (AsIndent Indent.nothing) self)
          ++ _inner_html other.
Proof.
  eexists. split; [vm_compute; reflexivity|]. split; [reflexivity|].
  vm_compute. discriminate.
Qed.

(** ** Concatenation without mutation *)

(** C7. [a + b] copies [a] into a new object, appends [b] to the copy and
    returns the copy; [a] and [b] (which may be the same object) and all
    other objects keep their committed lines and pending buffers, and
    render as before. *)
Theorem add_leaves_operands (h : heap) (a b : loc) (da db : Html) :
  h !! a = Some da -> h !! b = Some db ->
  exists target,
    h !! target = None
    /\ Html_add a (Doc b) h
       = (<[target := iadd_html da db]> h, Return target)
    /\ <[target := iadd_html da db]> h !! a = Some da
    /\ <[target := iadd_html da db]> h !! b = Some db
    /\ (forall l, l <> target ->
                  <[target := iadd_html da db]> h !! l = h !! l)
    /\ forall n,
        snd (to_raw_html_obj n a (<[target := iadd_html da db]> h))
        = snd (to_raw_html_obj n a h)
        /\ snd (to_raw_html_obj n b (<[target := iadd_html da db]> h))
           = snd (to_raw_html_obj n b h).
Proof.
  intros Ha Hb. exists (fresh (dom h)).
  assert (h !! fresh (dom h) = None) as Hfresh
    by (apply not_elem_of_dom, is_fresh).
  assert (fresh (dom h) <> a) as Hna by congruence.
  assert (fresh (dom h) <> b) as Hnb by congruence.
  split; [exact Hfresh|]. split.
  { unfold Html_add, deepcopy.
    erewrite bind_return; [|rewrite Ha; reflexivity].
    rewrite (iadd_distinct _ _ b da db); [now rewrite insert_insert_eq | .. ].
    - exact Hnb.
    - apply lookup_insert_eq.
    - now rewrite lookup_insert_ne. }
  assert (forall l, l <> fresh (dom h) ->
            <[fresh (dom h) := iadd_html da db]> h !! l = h !! l) as Hframe
    by (intros l Hl; now rewrite lookup_insert_ne).
  split; [rewrite Hframe; auto|]. split; [rewrite Hframe; auto|].
  split; [exact Hframe|].
  intros n. unfold to_raw_html_obj, bind, load.
  rewrite !Hframe by auto. rewrite Ha, Hb. now split.
Qed.

Lemma add_leaves_operands_witness :
  exists target,
    two_documents !! target = None
    /\ Html_add 1%positive (Doc 2%positive) two_documents
       = (<[target :=
              mkHtml [mk_HtmlLine "a" Indent.nothing; mk_HtmlLine "b" Indent.nothing;
                      mk_HtmlLine "<p>" Indent.indent] "c"]> two_documents,
          Return target).
Proof.
  destruct (add_leaves_operands two_documents 1%positive 2%positive
              (mkHtml [mk_HtmlLine "a" Indent.nothing] "b")
              (mkHtml [mk_HtmlLine "<p>" Indent.indent] "c")
              eq_refl eq_refl) as (target & Hfresh & Hadd & _).
  exists target. split; [exact Hfresh | exact Hadd].
Defined.

(** [x += x]: the loop iterates the deque it appends to.  With pending text
    the first commit and the first iteration each append a line, and the
    next step of the iteration raises. *)
Example iadd_self :
  Html_iadd 1%positive (Doc 1%positive) two_documents
  = (<[1%positive :=
         mkHtml [mk_HtmlLine "a" Indent.nothing; mk_HtmlLine "b" Indent.nothing;
                 mk_HtmlLine "a" Indent.nothing] EmptyString]> two_documents,
     Raise (RuntimeError "deque mutated during iteration")).
Proof. vm_compute. reflexivity. Qed.

(** * Further properties *)

(** ** The delta enum *)

(** X1. [to_int] then [from_int] gives the delta back, and [to_int] only
    takes the values -1, 0 and 1. *)
Theorem indent_int_round_trip (i : Indent.t) :
  Indent.from_int (Indent.to_int i) = i
  /\ (-1 <= Indent.to_int i <= 1)%Z.
Proof. destruct i; split; try reflexivity; simpl; lia. Qed.

(** X2. [Indent.__add__] adds the integer values and saturates at -1 and 1;
    it is commutative, Nothing is neutral, Indent and Dedent cancel, and,
    because of the saturation, it is not associative. *)
Theorem indent_add_saturates (a b : Indent.t) :
  Indent.to_int (Indent.add a b)
  = Z.max (-1) (Z.min 1 (Indent.to_int a + Indent.to_int b))
  /\ Indent.add a b = Indent.add b a
  /\ Indent.add a Indent.nothing = a
  /\ Indent.add Indent.indent Indent.dedent = Indent.nothing
  /\ Indent.add (Indent.add Indent.indent Indent.indent) Indent.dedent
     <> Indent.add Indent.indent (Indent.add Indent.indent Indent.dedent).
Proof. destruct a, b; repeat split; discriminate. Qed.

(** ** Text writes and line commits *)

(** X3. Text writes with no commit in between add up: the pending buffer
    is extended by the written strings in order, and the committed lines
    are untouched. *)
Theorem writes_concatenate (texts : list string) (self : Html) :
  fold_left (fun d text => iadd_str text d) texts self
  = mkHtml (_inner_html self) (_buffer self +:+ str_concat texts).
Proof.
  revert self. induction texts as [|t texts IH]; intros self; simpl.
  - rewrite str_app_nil_r. now destruct self.
  - rewrite IH. simpl. now rewrite str_app_assoc.
Qed.

(** X4. After an unforced commit, a further [newline()] changes nothing:
    repeated commits without text in between do not pile up blank lines. *)
Theorem newline_again (a : indent_arg) (self : Html) :
  newline false (AsIndent Indent.nothing) (newline false a self)
  = newline false a self.
Proof.
  apply newline_nothing_id;
    [apply newline_nonempty | apply newline_unforced_buffer].
Qed.

Lemma bump_last_texts (delta : Indent.t) (lines : list _HtmlLine) :
  map line (bump_last delta lines) = map line lines.
Proof.
  destruct lines as [|x xs _] using rev_ind; [reflexivity|].
  rewrite bump_last_snoc, !map_app. reflexivity.
Qed.

Lemma newline_texts (force : bool) (a : indent_arg) (self : Html) :
  map line (_inner_html (newline force a self))
  = map line (_inner_html self)
    \/ map line (_inner_html (newline force a self))
       = map line (_inner_html self) ++ [_buffer self].
Proof.
  unfold newline. destruct (negb force && _ && _); simpl.
  - left. apply bump_last_texts.
  - right. now rewrite map_app.
Qed.

(** X5. No body of writes, commits, nested scopes and raises changes or
    removes the text of a line that is committed: the texts of the committed
    lines before the body are a prefix of those after it. *)
Theorem exec_keeps_committed_text (p : stmt) (self : Html) :
  map line (_inner_html self)
    `prefix_of` map line (_inner_html (fst (exec p self))).
Proof.
  apply exec_preserves
    with (P := fun d => map line (_inner_html self)
                          `prefix_of` map line (_inner_html d)).
  - intros force a d Hd.
    destruct (newline_texts force a d) as [-> | ->];
      [exact Hd | now apply prefix_app_r].
  - intros text d Hd. exact Hd.
  - reflexivity.
Qed.

(** ** Balanced scopes *)

Lemma sum_from_app (lvl : Z) (l1 l2 : list _HtmlLine) :
  sum_from lvl (l1 ++ l2) = sum_from (sum_from lvl l1) l2.
Proof. unfold sum_from. apply fold_left_app. Qed.

Lemma sum_from_shift (lvl : Z) (lines : list _HtmlLine) :
  sum_from lvl lines = (lvl + sum_from 0 lines)%Z.
Proof.
  revert lvl. induction lines as [|x rest IH]; intros lvl.
  - simpl. lia.
  - rewrite !sum_from_cons, IH, (IH (0 + _)%Z). lia.
Qed.

Lemma nonneg_from_app (lvl : Z) (l1 l2 : list _HtmlLine) :
  nonneg_from lvl (l1 ++ l2)
  = nonneg_from lvl l1 && nonneg_from (sum_from lvl l1) l2.
Proof.
  revert lvl. induction l1 as [|x l1 IH]; intros lvl; [reflexivity|].
  cbn [app nonneg_from]. rewrite IH, sum_from_cons. now rewrite andb_assoc.
Qed.

Lemma nonneg_from_sum (lvl : Z) (lines : list _HtmlLine) :
  nonneg_from lvl lines = true -> (0 <= lvl)%Z -> (0 <= sum_from lvl lines)%Z.
Proof.
  revert lvl. induction lines as [|x rest IH]; intros lvl; [simpl; auto|].
  cbn [nonneg_from]. rewrite andb_true_iff, Z.leb_le. intros [Hx Hrest] _.
  rewrite sum_from_cons. now apply IH.
Qed.

Lemma nonneg_from_snoc (lines : list _HtmlLine) (l : _HtmlLine) :
  nonneg_from 0 (lines ++ [l])
  = nonneg_from 0 lines
    && (0 <=? sum_from 0 lines + Indent.to_int (indent l))%Z.
Proof. rewrite nonneg_from_app. simpl. now rewrite andb_true_r. Qed.

Lemma sum_from_snoc (lines : list _HtmlLine) (l : _HtmlLine) :
  sum_from 0 (lines ++ [l]) = (sum_from 0 lines + Indent.to_int (indent l))%Z.
Proof. now rewrite sum_from_app. Qed.

Lemma sum_from_single (lvl : Z) (l : _HtmlLine) :
  sum_from lvl [l] = (lvl + Indent.to_int (indent l))%Z.
Proof. reflexivity. Qed.

Lemma balanced_final_nonneg (self : Html) :
  balanced self -> (0 <= final_level self)%Z.
Proof. intros [Hok _]. apply nonneg_from_sum; [exact Hok | lia]. Qed.

(** Committing a line on top of a balanced document. *)
Lemma balanced_snoc (lines : list _HtmlLine) (l : _HtmlLine) (buf buf' : string) :
  balanced (mkHtml lines buf) ->
  (0 <= sum_from 0 lines + Indent.to_int (indent l))%Z ->
  indent l <> Indent.dedent ->
  balanced (mkHtml (lines ++ [l]) buf').
Proof.
  intros [Hok _] Hsum Hl. split; simpl in *.
  - rewrite nonneg_from_snoc, Hok. simpl. now apply Z.leb_le.
  - intros l'. rewrite last_snoc. now intros [= <-].
Qed.

Lemma entered_text (text : string) (self : Html) :
  text <> EmptyString ->
  entered text self
  = mkHtml (_inner_html (newline false (AsIndent Indent.nothing) self)
            ++ [mk_HtmlLine text Indent.indent])
           EmptyString.
Proof.
  intros Ht. unfold entered. rewrite newline_append.
  - simpl. now rewrite newline_unforced_buffer.
  - right; left. simpl. now apply str_app_nonempty_r.
Qed.

Lemma exited_text (text : string) (self : Html) :
  text <> EmptyString ->
  exited text self
  = mkHtml (_inner_html (newline false (AsIndent Indent.dedent) self)
            ++ [mk_HtmlLine text Indent.nothing])
           EmptyString.
Proof.
  intros Ht. unfold exited. rewrite newline_append.
  - simpl. now rewrite newline_unforced_buffer.
  - right; left. simpl. now apply str_app_nonempty_r.
Qed.

Lemma balanced_newline_nothing (force : bool) (a : indent_arg) (self : Html) :
  coerce_indent a = Indent.nothing ->
  balanced self ->
  balanced (newline force a self)
  /\ final_level (newline force a self) = final_level self.
Proof.
  intros Ha Hb. pose proof (balanced_final_nonneg _ Hb) as Hlvl.
  unfold newline. rewrite Ha.
  destruct (negb force && _ && _) eqn:E.
  - apply newline_merge_cond in E. destruct E as (_ & _ & Hne).
    destruct self as [lines buf]. simpl in *.
    destruct lines as [|x xs _] using rev_ind; [congruence|].
    rewrite bump_last_snoc, add_nothing_r.
    replace (mk_HtmlLine (line x) (indent x)) with x by now destruct x.
    split; [exact Hb | reflexivity].
  - destruct self as [lines buf]. unfold final_level in *. simpl in *. split.
    + eapply balanced_snoc; [exact Hb | simpl; lia | discriminate].
    + rewrite sum_from_snoc. simpl. lia.
Qed.

Lemma balanced_entered (text : string) (self : Html) :
  text <> EmptyString -> balanced self ->
  balanced (entered text self)
  /\ final_level (entered text self) = (final_level self + 1)%Z.
Proof.
  intros Ht Hb. rewrite entered_text by exact Ht.
  destruct (balanced_newline_nothing false (AsIndent Indent.nothing) self
              eq_refl Hb) as [Hb' Hl'].
  pose proof (balanced_final_nonneg _ Hb') as Hlvl.
  destruct (newline false (AsIndent Indent.nothing) self) as [lines buf].
  unfold final_level in *. simpl in *. split.
  - eapply balanced_snoc; [exact Hb' | simpl; lia | discriminate].
  - rewrite sum_from_snoc. simpl. lia.
Qed.

(** The commit with delta Dedent takes the level down by exactly one when
    the last line does not dedent already. *)
Lemma dedent_commit (self : Html) :
  balanced self -> (1 <= final_level self)%Z ->
  nonneg_from 0 (_inner_html (newline false (AsIndent Indent.dedent) self)) = true
  /\ sum_from 0 (_inner_html (newline false (AsIndent Indent.dedent) self))
     = (final_level self - 1)%Z.
Proof.
  intros [Hok Hlast] Hlvl. unfold newline, final_level in *.
  destruct (negb false && _ && _) eqn:E.
  - apply newline_merge_cond in E. destruct E as (_ & _ & Hne).
    destruct self as [lines buf]. cbn [_inner_html _buffer coerce_indent] in *.
    destruct lines as [|x xs _] using rev_ind; [congruence|].
    rewrite bump_last_snoc.
    rewrite nonneg_from_snoc in *. rewrite sum_from_snoc in Hlvl.
    rewrite !sum_from_snoc. cbn [indent line].
    apply andb_true_iff in Hok. destruct Hok as [Hxs _].
    specialize (Hlast x (last_snoc _ _)).
    assert (Indent.to_int (Indent.add (indent x) Indent.dedent)
            = Indent.to_int (indent x) - 1)%Z as ->
      by (destruct (indent x); [congruence | reflexivity | reflexivity]).
    split; [|lia]. rewrite Hxs. simpl. apply Z.leb_le. lia.
  - cbn [_inner_html coerce_indent].
    rewrite nonneg_from_snoc, sum_from_snoc, Hok. cbn [indent Indent.to_int andb].
    split; [apply Z.leb_le|]; lia.
Qed.

Lemma balanced_exited (text : string) (self : Html) :
  text <> EmptyString -> balanced self -> (1 <= final_level self)%Z ->
  balanced (exited text self)
  /\ final_level (exited text self) = (final_level self - 1)%Z.
Proof.
  intros Ht Hb Hlvl. rewrite exited_text by exact Ht.
  destruct (dedent_commit self Hb Hlvl) as [Hok Hsum].
  unfold final_level in *. simpl. split.
  - split; simpl.
    + rewrite nonneg_from_snoc, Hok, Hsum. simpl. apply Z.leb_le. lia.
    + intros l. rewrite last_snoc. now intros [= <-].
  - rewrite sum_from_snoc, Hsum. simpl. lia.
Qed.

Lemma balanced_exec (p : stmt) :
  commits_nothing p = true ->
  forall self, balanced self ->
    balanced (fst (exec p self))
    /\ final_level (fst (exec p self)) = final_level self.
Proof.
  induction p as [| | force a | name id_ classes styles attributes body IH
                 | p IHp q IHq |]; cbn [commits_nothing exec];
    intros Hp self Hb.
  - now split.
  - now split.
  - apply bool_decide_eq_true in Hp. now apply balanced_newline_nothing.
  - rewrite tag_unfold. cbn [fst].
    destruct (balanced_entered (open_tag_of name id_ classes styles attributes)
                self (open_tag_nonempty _ _ _ _ _) Hb) as [Hb1 Hl1].
    destruct (IH Hp _ Hb1) as [Hb2 Hl2].
    pose proof (balanced_final_nonneg _ Hb) as Hlvl.
    destruct (balanced_exited (close_tag_of name id_ classes styles attributes)
                _ (close_tag_nonempty _ _ _ _ _) Hb2 ltac:(lia)) as [Hb3 Hl3].
    split; [exact Hb3 | lia].
  - apply andb_true_iff in Hp. destruct Hp as [Hp Hq].
    destruct (IHp Hp self Hb) as [Hb1 Hl1]. unfold bind.
    destruct (exec p self) as [s' [[]|e]]; cbn [fst] in *.
    + destruct (IHq Hq s' Hb1) as [Hb2 Hl2]. split; [exact Hb2 | lia].
    + now split.
  - now split.
Qed.

(** X6. Bodies made of text writes, commits with delta Nothing, nested tag
    scopes and raises keep a document balanced: from a document whose
    running level is never negative and whose last committed line does not
    dedent, the body leaves such a document again, at the same final level,
    and rendering it returns; this holds when the body raises, too. *)
Theorem balanced_scopes (p : stmt) (self : Html) :
  commits_nothing p = true -> balanced self ->
  balanced (fst (exec p self))
  /\ final_level (fst (exec p self)) = final_level self
  /\ forall n, exists out, to_raw_html n (fst (exec p self)) = Return out.
Proof.
  intros Hp Hb. destruct (balanced_exec p Hp self Hb) as [Hb' Hl'].
  split; [exact Hb'|]. split; [exact Hl'|].
  intros n. rewrite to_raw_html_spec. destruct Hb' as [-> _]. eauto.
Qed.

Lemma balanced_scopes_witness :
  final_level
    (fst (exec (STag "div" None None None None
                  (SSeq (SWrite "text") (SRaise (OtherError "stop"))))
               (mkHtml [mk_HtmlLine "<body>" Indent.indent] EmptyString)))
  = 1%Z.
Proof.
  apply (proj1 (proj2 (balanced_scopes
                         (STag "div" None None None None
                            (SSeq (SWrite "text") (SRaise (OtherError "stop"))))
                         (mkHtml [mk_HtmlLine "<body>" Indent.indent] EmptyString)
                         eq_refl
                         (conj eq_refl
                               (fun l (H : Some (mk_HtmlLine "<body>" Indent.indent)
                                           = Some l) =>
                                  match H in _ = o
                                        return match o with
                                               | Some l' => indent l' <> Indent.dedent
                                               | None => True
                                               end
                                  with eq_refl => ltac:(discriminate) end))))).
Defined.

Lemma balanced_init (c : init_content) :
  balanced (Html_init c) /\ final_level (Html_init c) = 0%Z.
Proof.
  assert (forall texts : list string,
             nonneg_from 0 (map (fun t => mk_HtmlLine t Indent.nothing) texts) = true
             /\ sum_from 0 (map (fun t => mk_HtmlLine t Indent.nothing) texts) = 0%Z
             /\ forall l, last (map (fun t => mk_HtmlLine t Indent.nothing) texts)
                          = Some l -> indent l <> Indent.dedent) as Hseq.
  { induction texts as [|t texts _] using rev_ind; [repeat split; discriminate|].
    rewrite map_app. simpl.
    rewrite nonneg_from_snoc, sum_from_snoc. simpl.
    assert (nonneg_from 0 (map (fun t => mk_HtmlLine t Indent.nothing) texts) = true
            /\ sum_from 0 (map (fun t => mk_HtmlLine t Indent.nothing) texts) = 0%Z)
      as [-> ->].
    { clear. induction texts as [|t texts [IH1 IH2]] using rev_ind; [now split|].
      rewrite map_app. simpl. rewrite nonneg_from_snoc, sum_from_snoc, IH1, IH2.
      now split. }
    repeat split. intros l. rewrite last_snoc. now intros [= <-]. }
  unfold balanced, final_level. destruct c as [|t|texts]; simpl.
  - repeat split. discriminate.
  - repeat split. now intros l [= <-].
  - destruct (Hseq texts) as (H1 & H2 & H3). repeat split; assumption.
Qed.

(** X7. A document made by [Html(...)] and then only written to, committed
    with delta Nothing and wrapped in tag scopes always renders, whatever
    the indent size and also after a body raised, and its committed lines
    end at level 0. *)
Theorem built_document_renders (c : init_content) (p : stmt) (n : Z) :
  commits_nothing p = true ->
  final_level (fst (exec p (Html_init c))) = 0%Z
  /\ exists out, to_raw_html n (fst (exec p (Html_init c))) = Return out.
Proof.
  intros Hp. destruct (balanced_init c) as [Hb Hl].
  destruct (balanced_exec p Hp (Html_init c) Hb) as [[Hok _] Hl'].
  split; [lia|]. rewrite to_raw_html_spec, Hok. eauto.
Qed.

Lemma built_document_renders_witness :
  exists out, to_raw_html 2 hello_world = Return out.
Proof.
  apply (proj2 (built_document_renders NoContent
                  (STag "div" None None None None
                     (STag "p" None None None None (SWrite "Hello World!")))
                  2 eq_refl)).
Defined.

(** ** A scope around text *)

Section ScopeWithText.

Variables (name : string) (id_ : option string)
          (classes : option (list string))
          (styles attributes : option (list (string * string))).

Local Abbreviation open_tag :=
  (open_tag_of name id_ classes styles attributes).
Local Abbreviation close_tag :=
  (close_tag_of name id_ classes styles attributes).

Lemma scope_with_text_lines (text : string) (self : Html) :
  text <> EmptyString ->
  tag name id_ classes styles attributes (modify (iadd_str text)) self
  = (mkHtml (_inner_html (newline false (AsIndent Indent.nothing) self)
             ++ [mk_HtmlLine open_tag Indent.indent;
                 mk_HtmlLine text Indent.dedent;
                 mk_HtmlLine close_tag Indent.nothing])
            EmptyString,
     Return tt).
Proof.
  intros Ht. rewrite tag_unfold. unfold modify. cbn [fst snd].
  rewrite exited_eq, entered_eq. unfold iadd_str at 1. cbn [_inner_html _buffer].
  rewrite str_app_nil_l, newline_append by (right; left; exact Ht).
  cbn [_inner_html _buffer coerce_indent]. now rewrite <- !app_assoc.
Qed.

Lemma render_three_lines (n : Z) (text : string) (before : list _HtmlLine) :
  render_loop n (before ++ [mk_HtmlLine open_tag Indent.indent;
                            mk_HtmlLine text Indent.dedent;
                            mk_HtmlLine close_tag Indent.nothing])
              EmptyString 0
  = match render_loop n before EmptyString 0 with
    | Return (s, lvl) =>
        Return (((s +:+ emit_line n lvl open_tag)
                   +:+ emit_line n (lvl + 1) text)
                  +:+ emit_line n lvl close_tag, lvl)
    | Raise e => Raise e
    end.
Proof.
  rewrite render_loop_app.
  destruct (render_loop n before EmptyString 0) as [[s lvl]|e] eqn:E;
    [|reflexivity].
  assert (0 <= lvl)%Z as Hlvl
    by (eapply render_loop_level_nonneg; [exact E | lia]).
  cbn [render_loop line indent Indent.to_int].
  replace (lvl + 1 + -1)%Z with lvl by lia. rewrite Z.add_0_r.
  replace (lvl + 1 <? 0)%Z with false by (symmetry; apply Z.ltb_ge; lia).
  replace (lvl <? 0)%Z with false by (symmetry; apply Z.ltb_ge; lia).
  reflexivity.
Qed.

(** X8. On a document that has a committed line and an empty pending
    buffer, a tag scope whose body writes a non-empty text adds exactly
    three committed lines, the open tag, the text and the close tag, and
    rendering prints the text one level deeper than the two tags, which are
    at the level the earlier lines end at. *)
Theorem scope_with_text (text : string) (self : Html) :
  _inner_html self <> [] -> _buffer self = EmptyString -> text <> EmptyString ->
  tag name id_ classes styles attributes (modify (iadd_str text)) self
  = (mkHtml (_inner_html self
             ++ [mk_HtmlLine open_tag Indent.indent;
                 mk_HtmlLine text Indent.dedent;
                 mk_HtmlLine close_tag Indent.nothing])
            EmptyString,
     Return tt)
  /\ forall n,
      to_raw_html n
        (fst (tag name id_ classes styles attributes (modify (iadd_str text)) self))
      = match render_loop n (_inner_html self) EmptyString 0 with
        | Return (s, lvl) =>
            Return ((((s +:+ emit_line n lvl open_tag)
                        +:+ emit_line n (lvl + 1) text)
                       +:+ emit_line n lvl close_tag)
                      +:+ ((str_mul " " n +:+ EmptyString) +:+ nl))
        | Raise e => Raise e
        end.
Proof.
  intros Hl Hb Ht.
  rewrite scope_with_text_lines, newline_nothing_id by assumption.
  split; [reflexivity|]. intros n.
  unfold to_raw_html. cbn [fst _inner_html _buffer].
  rewrite render_three_lines.
  now destruct (render_loop n (_inner_html self) EmptyString 0) as [[s lvl]|e].
Qed.

End ScopeWithText.

Lemma scope_with_text_witness :
  tag "p" None None None None (modify (iadd_str "Hello"))
      (Html_init (StrContent "<!DOCTYPE html>"))
  = (mkHtml [mk_HtmlLine "<!DOCTYPE html>" Indent.nothing;
             mk_HtmlLine "<p>" Indent.indent;
             mk_HtmlLine "Hello" Indent.dedent;
             mk_HtmlLine "</p>" Indent.nothing] EmptyString,
     Return tt).
Proof.
  apply (proj1 (scope_with_text "p" None None None None "Hello"
                  (Html_init (StrContent "<!DOCTYPE html>"))
                  ltac:(discriminate) eq_refl ltac:(discriminate))).
Defined.

(** ** Seeded documents and the indent size *)

Lemma str_repeat_empty (k : nat) : str_repeat EmptyString k = EmptyString.
Proof. induction k as [|k IH]; [reflexivity | exact IH]. Qed.

Lemma str_mul_zero (s : string) : str_mul s 0 = EmptyString.
Proof. reflexivity. Qed.

Lemma str_mul_nonpos (s : string) (n : Z) : (n <= 0)%Z -> str_mul s n = EmptyString.
Proof. intros H. unfold str_mul. now replace (Z.to_nat n) with 0%nat by lia. Qed.

Lemma str_mul_empty (n : Z) : str_mul EmptyString n = EmptyString.
Proof. apply str_repeat_empty. Qed.

Lemma render_loop_seeded (n : Z) (texts : list string) (acc : string) :
  render_loop n (map (fun t => mk_HtmlLine t Indent.nothing) texts) acc 0
  = Return (acc +:+ str_concat (map (fun t => t +:+ nl) texts), 0%Z).
Proof.
  revert acc. induction texts as [|t texts IH]; intros acc.
  - simpl. now rewrite str_app_nil_r.
  - cbn [map render_loop line indent Indent.to_int]. rewrite Z.add_0_r.
    cbn [Z.ltb Z.compare]. rewrite IH, str_mul_zero, str_app_nil_l.
    cbn [str_concat foldr]. now rewrite str_app_assoc.
Qed.

(** X9. A document seeded by [Html(content)] renders, at every indent
    size, as its texts, one per line and without indentation, followed by
    the final line; it never raises.  No content gives the final line
    alone. *)
Theorem seeded_document_renders (c : init_content) (n : Z) :
  to_raw_html n (Html_init c)
  = Return (str_concat
              (map (fun t => t +:+ nl)
                   match c with
                   | NoContent => []
                   | StrContent t => [t]
                   | SeqContent texts => texts
                   end)
            +:+ ((str_mul " " n +:+ EmptyString) +:+ nl)).
Proof.
  unfold to_raw_html.
  replace (_inner_html (Html_init c))
    with (map (fun t => mk_HtmlLine t Indent.nothing)
              match c with
              | NoContent => []
              | StrContent t => [t]
              | SeqContent texts => texts
              end) by now destruct c.
  rewrite render_loop_seeded. now destruct c.
Qed.

Lemma render_loop_nonpos (n : Z) (lines : list _HtmlLine) (acc : string) (lvl : Z) :
  (n <= 0)%Z -> render_loop n lines acc lvl = render_loop 0 lines acc lvl.
Proof.
  intros Hn. revert acc lvl. induction lines as [|x rest IH]; intros acc lvl;
    [reflexivity|].
  cbn [render_loop]. rewrite IH, (str_mul_nonpos " " n Hn), str_mul_zero.
  reflexivity.
Qed.

Lemma render_loop_zero (lines : list _HtmlLine) (acc : string) (lvl : Z) :
  render_loop 0 lines acc lvl
  = if nonneg_from lvl lines
    then Return (acc +:+ str_concat (map (fun l => line l +:+ nl) lines),
                 sum_from lvl lines)
    else Raise (WriteOutError "Invalid indentation found.").
Proof.
  revert acc lvl. induction lines as [|x rest IH]; intros acc lvl.
  - simpl. now rewrite str_app_nil_r.
  - cbn [render_loop nonneg_from]. rewrite IH, sum_from_cons.
    rewrite str_mul_zero, str_mul_empty, str_app_nil_l.
    destruct (Z.ltb_spec (lvl + Indent.to_int (indent x)) 0) as [Hneg|Hpos].
    + replace (0 <=? lvl + Indent.to_int (indent x))%Z with false
        by (symmetry; apply Z.leb_gt; lia).
      reflexivity.
    + replace (0 <=? lvl + Indent.to_int (indent x))%Z with true
        by (symmetry; apply Z.leb_le; lia).
      cbn [andb map str_concat foldr]. now rewrite str_app_assoc.
Qed.

(** X10. An indent size of zero or less gives no indentation at all: the
    output is that of indent size 0, and when rendering returns, it is the
    committed texts and the pending text, each on a line starting at the
    first column. *)
Theorem nonpositive_indent_size (n : Z) (self : Html) :
  (n <= 0)%Z ->
  to_raw_html n self = to_raw_html 0 self
  /\ (nonneg_from 0 (_inner_html self) = true ->
      to_raw_html n self
      = Return (str_concat (map (fun l => line l +:+ nl) (_inner_html self))
                +:+ (_buffer self +:+ nl))).
Proof.
  intros Hn. unfold to_raw_html.
  rewrite (render_loop_nonpos n) by exact Hn.
  rewrite (str_mul_nonpos " " n Hn), str_mul_zero. split; [reflexivity|].
  intros Hok. now rewrite render_loop_zero, Hok, !str_app_nil_l.
Qed.

Lemma nonpositive_indent_size_witness :
  to_raw_html (-4) hello_world = to_raw_html 0 hello_world.
Proof.
  apply (proj1 (nonpositive_indent_size (-4) hello_world ltac:(lia))).
Defined.

(** X11. Whether rendering returns or raises does not depend on the indent
    size. *)
Theorem render_outcome_any_indent_size (n m : Z) (self : Html) (out : string) :
  to_raw_html n self = Return out ->
  exists out', to_raw_html m self = Return out'.
Proof.
  rewrite !to_raw_html_spec.
  destruct (nonneg_from 0 (_inner_html self)); [eauto | discriminate].
Qed.

Lemma render_outcome_any_indent_size_witness :
  exists out', to_raw_html 7 hello_world = Return out'.
Proof.
  apply (render_outcome_any_indent_size 2 7 hello_world
           (nl +:+ "<div>" +:+ nl +:+ "  <p>" +:+ nl
            +:+ "    Hello World!" +:+ nl +:+ "  </p>" +:+ nl
            +:+ "</div>" +:+ nl +:+ "  " +:+ nl) eq_refl).
Defined.

(** ** Rendering from a level *)

Lemma render_from_nil (n lvl : Z) : render_from n lvl [] = EmptyString.
Proof. reflexivity. Qed.

Lemma render_from_cons (n lvl : Z) (x : _HtmlLine) (rest : list _HtmlLine) :
  render_from n lvl (x :: rest)
  = emit_line n lvl (line x)
    +:+ render_from n (lvl + Indent.to_int (indent x)) rest.
Proof. unfold render_from. rewrite imap_cons. reflexivity. Qed.

Lemma str_concat_app (a b : list string) :
  str_concat (a ++ b) = str_concat a +:+ str_concat b.
Proof.
  induction a as [|x a IH]; [reflexivity|].
  cbn [app str_concat foldr]. fold (str_concat (a ++ b)). fold (str_concat a).
  now rewrite IH, str_app_assoc.
Qed.

Lemma render_from_app (n lvl : Z) (l1 l2 : list _HtmlLine) :
  render_from n lvl (l1 ++ l2)
  = render_from n lvl l1 +:+ render_from n (sum_from lvl l1) l2.
Proof.
  revert lvl. induction l1 as [|x l1 IH]; intros lvl; [reflexivity|].
  cbn [app]. rewrite !render_from_cons, IH, sum_from_cons.
  now rewrite str_app_assoc.
Qed.

Lemma render_from_bump_last (n lvl : Z) (delta : Indent.t) (lines : list _HtmlLine) :
  render_from n lvl (bump_last delta lines) = render_from n lvl lines.
Proof.
  destruct lines as [|x xs _] using rev_ind; [reflexivity|].
  rewrite bump_last_snoc, !render_from_app, !render_from_cons. reflexivity.
Qed.

Lemma render_loop_from (n : Z) (lines : list _HtmlLine) (acc : string) (lvl : Z) :
  render_loop n lines acc lvl
  = if nonneg_from lvl lines
    then Return (acc +:+ render_from n lvl lines, sum_from lvl lines)
    else Raise (WriteOutError "Invalid indentation found.").
Proof. apply render_loop_spec. Qed.

Lemma to_raw_html_from (n : Z) (self : Html) :
  to_raw_html n self
  = if nonneg_from 0 (_inner_html self)
    then Return (render_from n 0 (_inner_html self)
                 +:+ ((str_mul " " n +:+ _buffer self) +:+ nl))
    else Raise (WriteOutError "Invalid indentation found.").
Proof. apply to_raw_html_spec. Qed.

Lemma str_mul_succ (s : string) (k : Z) :
  (0 <= k)%Z -> str_mul s (k + 1) = s +:+ str_mul s k.
Proof.
  intros Hk. unfold str_mul.
  replace (Z.to_nat (k + 1)) with (S (Z.to_nat k)) by lia. reflexivity.
Qed.

Lemma emit_line_deeper (n lvl : Z) (text : string) :
  (0 <= lvl)%Z ->
  emit_line n (lvl + 1) text = str_mul " " n +:+ emit_line n lvl text.
Proof.
  intros Hl. unfold emit_line. rewrite str_mul_succ by exact Hl.
  now rewrite !str_app_assoc.
Qed.

Lemma nonneg_from_mono (lvl lvl' : Z) (lines : list _HtmlLine) :
  (lvl <= lvl')%Z -> nonneg_from lvl lines = true -> nonneg_from lvl' lines = true.
Proof.
  revert lvl lvl'. induction lines as [|x rest IH]; intros lvl lvl' Hle;
    [reflexivity|].
  cbn [nonneg_from]. rewrite !andb_true_iff, !Z.leb_le. intros [Hx Hrest].
  split; [lia|]. eapply IH; [|exact Hrest]. lia.
Qed.

Lemma render_from_deeper (n lvl : Z) (lines : list _HtmlLine) :
  (0 <= lvl)%Z -> nonneg_from lvl lines = true ->
  render_from n (lvl + 1) lines
  = str_concat
      (imap (fun k l =>
               str_mul " " n
               +:+ emit_line n (sum_from lvl (take k lines)) (line l))
            lines).
Proof.
  revert lvl. induction lines as [|x rest IH]; intros lvl Hlvl Hok;
    [reflexivity|].
  cbn [nonneg_from] in Hok. apply andb_true_iff in Hok.
  destruct Hok as [Hx Hrest]. apply Z.leb_le in Hx.
  rewrite render_from_cons, imap_cons. cbn [str_concat foldr take].
  rewrite emit_line_deeper by exact Hlvl. f_equal.
  replace (lvl + 1 + Indent.to_int (indent x))%Z
    with (lvl + Indent.to_int (indent x) + 1)%Z by lia.
  rewrite (IH _ Hx Hrest). reflexivity.
Qed.

(** X12. Printing committed lines from one level deeper puts [indent_size]
    more spaces in front of every printed line and changes nothing else:
    when the lines render from level [lvl], they render from [lvl + 1],
    each line being the line printed from [lvl] with the indentation unit
    in front, and the loop ends one level higher. *)
Theorem render_one_level_deeper (n lvl : Z) (lines : list _HtmlLine) (acc : string) :
  (0 <= lvl)%Z -> nonneg_from lvl lines = true ->
  render_loop n lines acc lvl
  = Return (acc +:+ str_concat
                      (imap (fun k l =>
                               emit_line n (sum_from lvl (take k lines)) (line l))
                            lines),
            sum_from lvl lines)
  /\ render_loop n lines acc (lvl + 1)
     = Return (acc +:+ str_concat
                         (imap (fun k l =>
                                  str_mul " " n
                                  +:+ emit_line n (sum_from lvl (take k lines))
                                        (line l))
                               lines),
               (sum_from lvl lines + 1)%Z).
Proof.
  intros Hlvl Hok. split; [now rewrite render_loop_spec, Hok|].
  rewrite render_loop_from.
  rewrite (nonneg_from_mono lvl (lvl + 1)) by (lia || exact Hok).
  rewrite render_from_deeper by assumption.
  rewrite (sum_from_shift (lvl + 1)), (sum_from_shift lvl).
  now replace (lvl + 1 + sum_from 0 lines)%Z
    with (lvl + sum_from 0 lines + 1)%Z by lia.
Qed.

Lemma render_one_level_deeper_witness :
  render_loop 2 [mk_HtmlLine "<p>" Indent.indent; mk_HtmlLine "x" Indent.dedent]
              EmptyString 1
  = Return ("  <p>" +:+ nl +:+ "    x" +:+ nl, 1%Z).
Proof.
  apply (proj2 (render_one_level_deeper 2 0
                  [mk_HtmlLine "<p>" Indent.indent; mk_HtmlLine "x" Indent.dedent]
                  EmptyString ltac:(lia) eq_refl)).
Defined.

(** ** Enclosing a document in a tag *)

Lemma newline_unforced_lines (a : indent_arg) (lines : list _HtmlLine) (buf : string) :
  lines <> [] ->
  _inner_html (newline false a (mkHtml lines buf))
  = if decide (buf = EmptyString)
    then bump_last (coerce_indent a) lines
    else lines ++ [mk_HtmlLine buf (coerce_indent a)].
Proof.
  intros Hne. destruct (decide (buf = EmptyString)) as [->|Hb].
  - unfold newline. simpl. destruct lines; [congruence | reflexivity].
  - rewrite newline_append by (right; left; exact Hb). reflexivity.
Qed.

Section Enclose.

Variables (name : string) (id_ : option string)
          (classes : option (list string))
          (styles attributes : option (list (string * string))).

Local Abbreviation open_tag :=
  (open_tag_of name id_ classes styles attributes).
Local Abbreviation close_tag :=
  (close_tag_of name id_ classes styles attributes).

Lemma enclose_eq (self : Html) :
  enclose_with_tag name id_ classes styles attributes self
  = mkHtml (_inner_html
              (newline false (AsIndent Indent.dedent)
                 (mkHtml (mk_HtmlLine open_tag Indent.indent :: _inner_html self)
                         (_buffer self)))
            ++ [mk_HtmlLine close_tag Indent.nothing])
           EmptyString.
Proof.
  unfold enclose_with_tag. rewrite tags_pair.
  rewrite <- exited_eq. reflexivity.
Qed.

(** X13. [enclose_with_tag] puts the open tag in front of the committed
    lines and the close tag behind them, keeps the texts of the committed
    lines in order, commits a non-empty pending text as a line before the
    close tag, and leaves the pending buffer empty.  On the empty document
    the result is the two tag lines, both with delta Nothing. *)
Theorem enclose_texts (self : Html) :
  map line (_inner_html (enclose_with_tag name id_ classes styles attributes self))
  = open_tag :: map line (_inner_html self)
      ++ (if decide (_buffer self = EmptyString) then [] else [_buffer self])
      ++ [close_tag]
  /\ _buffer (enclose_with_tag name id_ classes styles attributes self)
     = EmptyString
  /\ enclose_with_tag name id_ classes styles attributes empty_html
     = mkHtml [mk_HtmlLine open_tag Indent.nothing;
               mk_HtmlLine close_tag Indent.nothing] EmptyString.
Proof.
  rewrite !enclose_eq. split; [|split; reflexivity].
  cbn [_inner_html]. rewrite newline_unforced_lines by discriminate.
  rewrite map_app. destruct (decide (_buffer self = EmptyString)).
  - rewrite bump_last_texts. reflexivity.
  - rewrite map_app. cbn [map line]. now rewrite <- app_assoc.
Qed.

Lemma balanced_opened (self : Html) :
  balanced self ->
  balanced (mkHtml (mk_HtmlLine open_tag Indent.indent :: _inner_html self)
                   (_buffer self))
  /\ final_level (mkHtml (mk_HtmlLine open_tag Indent.indent :: _inner_html self)
                         (_buffer self))
     = (final_level self + 1)%Z.
Proof.
  intros [Hok Hlast]. unfold balanced, final_level. cbn [_inner_html].
  rewrite sum_from_cons. cbn [nonneg_from indent Indent.to_int].
  rewrite (sum_from_shift 1). repeat split.
  - apply (nonneg_from_mono 0); [lia | exact Hok].
  - intros l. destruct (_inner_html self) as [|x xs] eqn:E.
    + now intros [= <-].
    + intros Hl. apply Hlast. exact Hl.
  - lia.
Qed.

(** X14. Enclosing a balanced document renders as the open tag at level 0,
    every committed line of the document one indentation unit deeper than
    the document alone prints it, a non-empty pending text as a line just
    inside the scope, the close tag at the level the document ends at, and
    the final line. *)
Theorem enclose_renders_deeper (self : Html) (n : Z) :
  balanced self ->
  to_raw_html n (enclose_with_tag name id_ classes styles attributes self)
  = Return
      (emit_line n 0 open_tag
       +:+ str_concat
             (imap (fun k l =>
                      str_mul " " n
                      +:+ emit_line n (level_after (_inner_html self) k) (line l))
                   (_inner_html self))
       +:+ (if decide (_buffer self = EmptyString) then EmptyString
            else emit_line n (final_level self + 1) (_buffer self))
       +:+ emit_line n (final_level self) close_tag
       +:+ ((str_mul " " n +:+ EmptyString) +:+ nl)).
Proof.
  intros Hb. pose proof (balanced_final_nonneg _ Hb) as Hlvl.
  destruct (balanced_opened self Hb) as [Hb1 Hl1].
  destruct (dedent_commit _ Hb1 ltac:(lia)) as [Hok Hsum].
  rewrite Hl1 in Hsum.
  rewrite enclose_eq, to_raw_html_from. cbn [_inner_html _buffer].
  rewrite nonneg_from_snoc, Hok, Hsum. cbn [indent Indent.to_int andb].
  replace (0 <=? final_level self - 0 + 1 - 1 + 0)%Z with true
    by (symmetry; apply Z.leb_le; lia).
  replace (0 <=? final_level self + 1 - 1 + 0)%Z with true
    by (symmetry; apply Z.leb_le; lia).
  f_equal. rewrite render_from_app, Hsum.
  rewrite render_from_cons, render_from_nil, str_app_nil_r. cbn [line].
  replace (final_level self + 1 - 1)%Z with (final_level self) by lia.
  rewrite newline_unforced_lines by discriminate.
  assert (render_from n 0 (mk_HtmlLine open_tag Indent.indent :: _inner_html self)
          = emit_line n 0 open_tag
            +:+ str_concat
                  (imap (fun k l =>
                           str_mul " " n
                           +:+ emit_line n (level_after (_inner_html self) k)
                                 (line l))
                        (_inner_html self))) as Hopen.
  { rewrite render_from_cons. cbn [indent Indent.to_int].
    rewrite (render_from_deeper n 0) by (lia || apply Hb). reflexivity. }
  destruct (decide (_buffer self = EmptyString)).
  - rewrite render_from_bump_last, Hopen, str_app_nil_l.
    now rewrite !str_app_assoc.
  - rewrite render_from_app, Hopen, render_from_cons, render_from_nil.
    rewrite str_app_nil_r, sum_from_cons. cbn [line indent Indent.to_int].
    rewrite (sum_from_shift (0 + 1)). fold (final_level self).
    replace (0 + 1 + final_level self)%Z with (final_level self + 1)%Z by lia.
    now rewrite !str_app_assoc.
Qed.

(** X15. Enclosing keeps a document renderable: when [to_raw_html]
    returns on the document, it returns on the enclosed document, whether
    or not the document is balanced. *)
Theorem enclose_keeps_renderable (self : Html) (n m : Z) (out : string) :
  to_raw_html n self = Return out ->
  exists out',
    to_raw_html m (enclose_with_tag name id_ classes styles attributes self)
    = Return out'.
Proof.
  rewrite !to_raw_html_spec.
  destruct (nonneg_from 0 (_inner_html self)) eqn:Hok; [intros _ | discriminate].
  assert (0 <= sum_from 0 (_inner_html self))%Z as Hsum
    by (apply nonneg_from_sum; [exact Hok | lia]).
  assert (nonneg_from 1 (_inner_html self) = true) as Hok1
    by (apply (nonneg_from_mono 0); [lia | exact Hok]).
  rewrite enclose_eq. cbn [_inner_html].
  rewrite newline_unforced_lines by discriminate.
  assert (nonneg_from 0
            ((if decide (_buffer self = EmptyString)
              then bump_last (coerce_indent (AsIndent Indent.dedent))
                     (mk_HtmlLine open_tag Indent.indent :: _inner_html self)
              else (mk_HtmlLine open_tag Indent.indent :: _inner_html self)
                   ++ [mk_HtmlLine (_buffer self)
                         (coerce_indent (AsIndent Indent.dedent))])
             ++ [mk_HtmlLine close_tag Indent.nothing]) = true) as ->; [|eauto].
  cbn [coerce_indent]. destruct (decide (_buffer self = EmptyString)).
  - destruct (_inner_html self) as [|x xs _] using rev_ind.
    + reflexivity.
    + rewrite app_comm_cons, bump_last_snoc, <- app_assoc.
      cbn [app nonneg_from indent Indent.to_int].
      change (0 + 1)%Z with 1%Z.
      rewrite nonneg_from_app in Hok1. rewrite sum_from_app in Hsum.
      apply andb_true_iff in Hok1. destruct Hok1 as [Hxs _].
      rewrite sum_from_single in Hsum.
      rewrite nonneg_from_app, Hxs.
      cbn [nonneg_from andb line indent Indent.to_int].
      rewrite (sum_from_shift 1).
      assert (Indent.to_int (indent x) - 1
              <= Indent.to_int (Indent.add (indent x) Indent.dedent))%Z
        by (destruct (indent x); simpl; lia).
      rewrite !andb_true_iff, !Z.leb_le. repeat split; lia.
  - rewrite <- app_assoc. cbn [app nonneg_from indent Indent.to_int].
    change (0 + 1)%Z with 1%Z.
    rewrite nonneg_from_app, Hok1.
    cbn [nonneg_from andb indent Indent.to_int].
    rewrite (sum_from_shift 1).
    rewrite !andb_true_iff, !Z.leb_le. repeat split; lia.
Qed.

End Enclose.

Lemma enclose_renders_deeper_witness :
  exists out,
    to_raw_html 2
      (enclose_with_tag "div" None None None None (Html_init (StrContent "text")))
    = Return out.
Proof.
  eexists.
  apply (enclose_renders_deeper "div" None None None None
           (Html_init (StrContent "text")) 2).
  split; [reflexivity | intros l [= <-]; discriminate].
Defined.

Lemma enclose_keeps_renderable_witness :
  exists out',
    to_raw_html 4
      (enclose_with_tag "div" None None None None
         (mkHtml [mk_HtmlLine "<a>" Indent.indent; mk_HtmlLine "<b>" Indent.indent;
                  mk_HtmlLine "x" Indent.dedent; mk_HtmlLine "</b>" Indent.dedent]
                 EmptyString))
    = Return out'.
Proof.
  apply (enclose_keeps_renderable "div" None None None None
           (mkHtml [mk_HtmlLine "<a>" Indent.indent; mk_HtmlLine "<b>" Indent.indent;
                    mk_HtmlLine "x" Indent.dedent; mk_HtmlLine "</b>" Indent.dedent]
                   EmptyString)
           2 4 ("<a>" +:+ nl +:+ "  <b>" +:+ nl +:+ "    x" +:+ nl
                +:+ "  </b>" +:+ nl +:+ "  " +:+ nl)
           eq_refl).
Defined.

(** ** The tag texts *)

Lemma str_join_cons (sep x : string) (rest : list string) :
  str_join sep (x :: rest)
  = x +:+ str_concat (map (fun part => sep +:+ part) rest).
Proof.
  revert x. induction rest as [|y rest IH]; intros x.
  - simpl. now rewrite str_app_nil_r.
  - change (str_join sep (x :: y :: rest))
      with (x +:+ sep +:+ str_join sep (y :: rest)).
    rewrite IH. cbn [map str_concat foldr]. now rewrite str_app_assoc.
Qed.

(** X16. The open tag is the name followed by the parts that are given, in
    the order id, class, style, attributes, each preceded by one space:
    [id=ID], [class="c1 c2"], [style="k: v; k2: v2;"] and one [key="val"]
    per attribute in iteration order; a part that is not given leaves no
    trace.  The close tag is built from the name alone.  Nothing is
    escaped. *)
Theorem open_tag_format (name : string) (id_ : option string)
    (classes : option (list string))
    (styles attributes : option (list (string * string))) :
  _get_open_and_close_tags name id_ classes styles attributes
  = ("<" +:+ name
     +:+ opt_part ((fun i => "id=" +:+ i) <$> id_)
     +:+ opt_part ((fun c => "class=" +:+ dquote +:+ str_join " " c +:+ dquote)
                     <$> classes)
     +:+ opt_part ((fun s => "style=" +:+ dquote
                              +:+ str_join " "
                                    (map (fun kv => fst kv +:+ ": " +:+ snd kv +:+ ";") s)
                              +:+ dquote) <$> styles)
     +:+ str_concat
           (map (fun kv => " " +:+ fst kv +:+ "=" +:+ dquote +:+ snd kv +:+ dquote)
                (default [] attributes))
     +:+ ">",
     "</" +:+ name +:+ ">").
Proof.
  unfold _get_open_and_close_tags. f_equal. f_equal.
  destruct id_ as [i|], classes as [c|], styles as [s|], attributes as [a|];
    cbn [fmap option_fmap option_map opt_part default app];
    rewrite str_join_cons;
    cbn [map str_concat foldr];
    rewrite ?map_map, ?str_app_nil_l, ?str_app_nil_r, ?str_app_assoc;
    reflexivity.
Qed.

(** X17. The edge cases of the optional parts: an empty attribute mapping
    gives the same open tag as no attributes, whereas an empty class
    sequence and an empty style mapping still give [class=""] and
    [style=""]; with no optional part at all the open tag is [<name>]. *)
Theorem open_tag_empty_parts (name : string) (id_ : option string)
    (classes : option (list string)) (styles : option (list (string * string))) :
  open_tag_of name id_ classes styles (Some [])
  = open_tag_of name id_ classes styles None
  /\ open_tag_of name None (Some []) None None
     = "<" +:+ name +:+ " class=" +:+ dquote +:+ dquote +:+ ">"
  /\ open_tag_of name None None (Some []) None
     = "<" +:+ name +:+ " style=" +:+ dquote +:+ dquote +:+ ">"
  /\ _get_open_and_close_tags name None None None None
     = ("<" +:+ name +:+ ">", "</" +:+ name +:+ ">").
Proof.
  unfold open_tag_of, _get_open_and_close_tags. cbn [fst map].
  rewrite ?app_nil_r. repeat split;
    cbn [app str_join]; rewrite ?str_app_assoc, ?str_app_nil_l; reflexivity.
Qed.

(** ** Methods on objects *)

Lemma on_obj_run {A} (h : heap) (l : loc) (d : Html) (m : M Html A) :
  h !! l = Some d -> on_obj l m h = (<[l := fst (m d)]> h, snd (m d)).
Proof. intros H. unfold on_obj. rewrite H. now destruct (m d). Qed.

Lemma content_value_insert (h : heap) (self : loc) (d : Html) (c : content) :
  c <> Doc self -> content_value (<[self := d]> h) c = content_value h c.
Proof.
  intros Hc. destruct c as [text|other]; [reflexivity|].
  simpl. rewrite lookup_insert_ne; [reflexivity | congruence].
Qed.

(** [self += content], for a string or for another document. *)
Lemma iadd_content (h : heap) (self : loc) (s : Html) (c : content)
    (v : string + Html) :
  h !! self = Some s -> content_value h c = Some v -> c <> Doc self ->
  Html_iadd self c h = (<[self := iadd_value s v]> h, Return self).
Proof.
  intros Hs Hv Hc. destruct c as [text|other]; simpl in Hv.
  - injection Hv as <-. unfold Html_iadd.
    now rewrite (bind_return _ _ _ _ _ (on_obj_modify _ _ _ _ Hs)).
  - destruct (h !! other) as [o|] eqn:Ho; [|discriminate].
    injection Hv as <-. apply iadd_distinct; [congruence | exact Hs | exact Ho].
Qed.

Section TagObject.

Variables (name : string) (id_ : option string)
          (classes : option (list string))
          (styles attributes : option (list (string * string))).

Local Abbreviation open_tag :=
  (open_tag_of name id_ classes styles attributes).
Local Abbreviation close_tag :=
  (close_tag_of name id_ classes styles attributes).

Lemma tag_enter_run (s : Html) :
  tag_enter open_tag s = (entered open_tag s, Return tt).
Proof. reflexivity. Qed.

Lemma tag_exit_run (s : Html) :
  tag_exit close_tag s = (exited close_tag s, Return tt).
Proof. reflexivity. Qed.

(** A scope on an object whose body returns and leaves the object in the
    store. *)
Lemma tag_obj_run {A} (h h2 : heap) (self : loc) (s s2 : Html)
    (body : M heap A) (r : outcome A) :
  h !! self = Some s ->
  body (<[self := entered open_tag s]> h) = (h2, r) ->
  h2 !! self = Some s2 ->
  tag_obj self name id_ classes styles attributes body h
  = (<[self := exited close_tag s2]> h2, r).
Proof.
  intros Hs Hbody Hs2. unfold tag_obj. rewrite tags_pair.
  erewrite bind_return; [|rewrite (on_obj_run _ _ _ _ Hs), tag_enter_run; reflexivity].
  unfold try_finally. cbn [fst]. rewrite Hbody.
  rewrite (on_obj_run _ _ _ _ Hs2), tag_exit_run. cbn [fst snd]. reflexivity.
Qed.

(** The scope of the value level, run on an object. *)
Lemma tag_obj_on_obj (h : heap) (self : loc) (s : Html) (body : M Html unit) :
  h !! self = Some s ->
  tag_obj self name id_ classes styles attributes (on_obj self body) h
  = on_obj self (tag name id_ classes styles attributes body) h.
Proof.
  intros Hs. rewrite (on_obj_run _ _ _ (tag _ _ _ _ _ _) Hs), tag_unfold.
  cbn [fst snd].
  erewrite tag_obj_run;
    [| exact Hs
     | rewrite (on_obj_run _ _ (entered open_tag s)) by apply lookup_insert_eq;
       reflexivity
     | apply lookup_insert_eq].
  now rewrite !insert_insert_eq.
Qed.

Lemma tag_with_content_run (h : heap) (self : loc) (s : Html) (c : content)
    (v : string + Html) :
  h !! self = Some s -> content_value h c = Some v -> c <> Doc self ->
  tag_with_content self c name id_ classes styles attributes h
  = (<[self := exited close_tag (iadd_value (entered open_tag s) v)]> h,
     Return tt).
Proof.
  intros Hs Hv Hc. unfold tag_with_content.
  assert ((Html_iadd self c ;; ret tt)%py (<[self := entered open_tag s]> h)
          = (<[self := iadd_value (entered open_tag s) v]> h, Return tt))
    as Hbody.
  { unfold bind.
    rewrite (iadd_content (<[self := entered open_tag s]> h) self
               (entered open_tag s) c v);
      [ now rewrite insert_insert_eq
      | apply lookup_insert_eq
      | now rewrite content_value_insert
      | exact Hc ]. }
  rewrite (tag_obj_run h _ self s (iadd_value (entered open_tag s) v) _
             (Return tt) Hs Hbody (lookup_insert_eq _ _ _)).
  now rewrite insert_insert_eq.
Qed.

End TagObject.

Lemma app_cons_not_nil_r {A} (l : list A) (x : A) : l ++ [x] <> [].
Proof. now destruct l. Qed.

Lemma bump_last_app (delta : Indent.t) (pre ls : list _HtmlLine) :
  ls <> [] -> bump_last delta (pre ++ ls) = pre ++ bump_last delta ls.
Proof.
  intros Hne. destruct ls as [|x xs _] using rev_ind; [congruence|].
  now rewrite app_assoc, !bump_last_snoc, app_assoc.
Qed.

Lemma newline_unforced_app (a : indent_arg) (pre ls : list _HtmlLine) (buf : string) :
  ls <> [] ->
  _inner_html (newline false a (mkHtml (pre ++ ls) buf))
  = pre ++ _inner_html (newline false a (mkHtml ls buf)).
Proof.
  intros Hne.
  rewrite !newline_unforced_lines by (exact Hne || now destruct pre, ls).
  destruct (decide (buf = EmptyString)).
  - now apply bump_last_app.
  - now rewrite app_assoc.
Qed.

Lemma iadd_html_all_text (s o : Html) :
  all_text o ->
  iadd_html s o
  = mkHtml (_inner_html (newline false (AsIndent Indent.nothing) s)
            ++ _inner_html o)
           (_buffer o).
Proof.
  intros Hall. unfold iadd_html, set_buffer. f_equal.
  rewrite fold_commit_lines by apply newline_nonempty.
  now apply fold_splice_with_text.
Qed.

Section TagWithContent.

Variables (name : string) (id_ : option string)
          (classes : option (list string))
          (styles attributes : option (list (string * string))).

Local Abbreviation open_tag :=
  (open_tag_of name id_ classes styles attributes).
Local Abbreviation close_tag :=
  (close_tag_of name id_ classes styles attributes).

(** X18. [tag_with_content] with a document whose committed lines all have
    text (and which has one): the content's committed lines go between the
    open-tag line and the close-tag line, after the pending text of [self]
    was committed; the Dedent commit of the scope's end applies to the
    content (its pending text becomes a line with delta Dedent, or, without
    pending text, its last line takes the Dedent).  The content document
    itself is left as it was. *)
Theorem tag_with_document (h : heap) (self other : loc) (s d : Html) :
  self <> other -> h !! self = Some s -> h !! other = Some d ->
  all_text d -> _inner_html d <> [] ->
  tag_with_content self (Doc other) name id_ classes styles attributes h
  = (<[self :=
         mkHtml (_inner_html (newline false (AsIndent Indent.nothing) s)
                 ++ [mk_HtmlLine open_tag Indent.indent]
                 ++ _inner_html (newline false (AsIndent Indent.dedent) d)
                 ++ [mk_HtmlLine close_tag Indent.nothing])
                EmptyString]> h,
     Return tt)
  /\ fst (tag_with_content self (Doc other) name id_ classes styles attributes h)
       !! other = Some d.
Proof.
  intros Hne Hs Hd Hall Hlines.
  rewrite (tag_with_content_run name id_ classes styles attributes
             h self s (Doc other) (inr d) Hs);
    [| simpl; now rewrite Hd | congruence].
  cbn [fst iadd_value]. split; [|now rewrite lookup_insert_ne].
  do 2 f_equal.
  rewrite exited_eq, iadd_html_all_text by exact Hall.
  rewrite newline_nothing_id
    by (rewrite entered_eq; cbn [_inner_html _buffer];
        first [reflexivity | apply app_cons_not_nil_r]).
  rewrite entered_eq. cbn [_inner_html].
  rewrite newline_unforced_app by exact Hlines.
  destruct d as [dl db]. cbn [_inner_html _buffer].
  now rewrite <- !app_assoc.
Qed.

(** X19. [tag_with_content] with a string, on a document that has a
    committed line and no pending text: a non-empty string gives the three
    lines open tag (Indent), text (Dedent), close tag (Nothing); the empty
    string gives the two tag lines, both with delta Nothing. *)
Theorem tag_with_string (h : heap) (self : loc) (s : Html) (text : string) :
  h !! self = Some s -> _inner_html s <> [] -> _buffer s = EmptyString ->
  tag_with_content self (Str text) name id_ classes styles attributes h
  = (<[self :=
         mkHtml (_inner_html s
                 ++ if decide (text = EmptyString)
                    then [mk_HtmlLine open_tag Indent.nothing;
                          mk_HtmlLine close_tag Indent.nothing]
                    else [mk_HtmlLine open_tag Indent.indent;
                          mk_HtmlLine text Indent.dedent;
                          mk_HtmlLine close_tag Indent.nothing])
                EmptyString]> h,
     Return tt).
Proof.
  intros Hs Hl Hb.
  rewrite (tag_with_content_run name id_ classes styles attributes
             h self s (Str text) (inl text) Hs eq_refl ltac:(discriminate)).
  do 2 f_equal. cbn [iadd_value].
  destruct (decide (text = EmptyString)) as [->|Ht].
  - pose proof (empty_scope_lines name id_ classes styles attributes s) as H.
    rewrite tag_unfold in H. unfold ret in H. cbn [fst snd] in H.
    injection H as H. rewrite newline_nothing_id in H by assumption.
    rewrite <- H. f_equal. unfold iadd_str.
    rewrite str_app_nil_r. now destruct (entered open_tag s).
  - pose proof (scope_with_text_lines name id_ classes styles attributes
                  text s Ht) as H.
    rewrite tag_unfold in H. unfold modify in H. cbn [fst snd] in H.
    injection H as H. rewrite newline_nothing_id in H by assumption.
    exact H.
Qed.

End TagWithContent.

Lemma tag_with_document_witness :
  tag_with_content 1%positive (Doc 2%positive) "div" None None None None
    two_documents
  = (<[1%positive :=
         mkHtml [mk_HtmlLine "a" Indent.nothing; mk_HtmlLine "b" Indent.nothing;
                 mk_HtmlLine "<div>" Indent.indent;
                 mk_HtmlLine "<p>" Indent.indent; mk_HtmlLine "c" Indent.dedent;
                 mk_HtmlLine "</div>" Indent.nothing] EmptyString]> two_documents,
     Return tt).
Proof.
  apply (proj1 (tag_with_document "div" None None None None
                  two_documents 1%positive 2%positive
                  (mkHtml [mk_HtmlLine "a" Indent.nothing] "b")
                  (mkHtml [mk_HtmlLine "<p>" Indent.indent] "c")
                  ltac:(discriminate) eq_refl eq_refl
                  ltac:(repeat constructor; discriminate)
                  ltac:(discriminate))).
Defined.

Lemma tag_with_string_witness :
  tag_with_content 2%positive (Str "Today") "dt" None None None None
    (<[2%positive := mkHtml [mk_HtmlLine "<dl>" Indent.indent] EmptyString]>
       (∅ : heap))
  = (<[2%positive :=
         mkHtml [mk_HtmlLine "<dl>" Indent.indent;
                 mk_HtmlLine "<dt>" Indent.indent;
                 mk_HtmlLine "Today" Indent.dedent;
                 mk_HtmlLine "</dt>" Indent.nothing] EmptyString]>
       (<[2%positive := mkHtml [mk_HtmlLine "<dl>" Indent.indent] EmptyString]>
          (∅ : heap)),
     Return tt).
Proof.
  apply (tag_with_string "dt" None None None None
           (<[2%positive := mkHtml [mk_HtmlLine "<dl>" Indent.indent] EmptyString]>
              (∅ : heap))
           2%positive (mkHtml [mk_HtmlLine "<dl>" Indent.indent] EmptyString)
           "Today" (lookup_insert_eq _ _ _) ltac:(discriminate) eq_refl).
Defined.

(** ** The template *)

Lemma tag_obj_iadd (name : string) (id_ : option string)
    (classes : option (list string))
    (styles attributes : option (list (string * string)))
    (h : heap) (self : loc) (s : Html) (c : content) (v : string + Html) :
  h !! self = Some s -> content_value h c = Some v -> c <> Doc self ->
  tag_obj self name id_ classes styles attributes (Html_iadd self c) h
  = (<[self := exited (close_tag_of name id_ classes styles attributes)
                 (iadd_value
                    (entered (open_tag_of name id_ classes styles attributes) s)
                    v)]> h,
     Return self).
Proof.
  intros Hs Hv Hc.
  assert (Html_iadd self c
            (<[self := entered (open_tag_of name id_ classes styles attributes) s]> h)
          = (<[self := iadd_value
                         (entered (open_tag_of name id_ classes styles attributes) s)
                         v]> h,
             Return self)) as Hbody.
  { rewrite (iadd_content _ self
               (entered (open_tag_of name id_ classes styles attributes) s) c v);
      [ now rewrite insert_insert_eq
      | apply lookup_insert_eq
      | now rewrite content_value_insert
      | exact Hc ]. }
  rewrite (tag_obj_run name id_ classes styles attributes h _ self s _ _
             (Return self) Hs Hbody (lookup_insert_eq _ _ _)).
  now rewrite insert_insert_eq.
Qed.

Lemma content_value_fresh (h : heap) (c : content) (v : string + Html) :
  content_value h c = Some v -> c <> Doc (fresh (dom h)).
Proof.
  intros Hv ->. simpl in Hv.
  rewrite (not_elem_of_dom_1 h (fresh (dom h)) (is_fresh _)) in Hv.
  discriminate.
Qed.

Lemma html_template_run (h : heap) (head body : content) (hv bv : string + Html) :
  content_value h head = Some hv -> content_value h body = Some bv ->
  html_template head body h
  = (<[fresh (dom h) := template_value hv bv]> h, Return (fresh (dom h))).
Proof.
  intros Hh Hb. set (new := fresh (dom h)).
  pose proof (content_value_fresh h head hv Hh) as Hnh.
  pose proof (content_value_fresh h body bv Hb) as Hnb.
  fold new in Hnh, Hnb.
  unfold html_template.
  erewrite bind_return; [|reflexivity]. fold new.
  set (s0 := Html_init (StrContent "<!DOCTYPE html>")).
  set (s1 := entered "<html>" s0).
  set (s2 := exited "</head>" (iadd_value (entered "<head>" s1) hv)).
  set (s3 := exited "</body>" (iadd_value (entered "<body>" s2) bv)).
  assert ((return_html <- tag_obj new "head" None None None None
                            (Html_iadd new head) ;;
           tag_obj return_html "body" None None None None
             (Html_iadd return_html body))%py (<[new := s1]> (<[new := s0]> h))
          = (<[new := s3]> h, Return new)) as Hbody.
  { erewrite bind_return;
      [|apply (tag_obj_iadd "head" None None None None _ new s1 head hv);
        [ apply lookup_insert_eq
        | now rewrite !content_value_insert
        | exact Hnh ]].
    rewrite (tag_obj_iadd "body" None None None None _ new s2 body bv);
      [ now rewrite !insert_insert_eq
      | apply lookup_insert_eq
      | now rewrite !content_value_insert
      | exact Hnb ]. }
  rewrite (tag_obj_run "html" None None None None (<[new := s0]> h) _ new s0 s3 _
             (Return new) (lookup_insert_eq _ _ _) Hbody (lookup_insert_eq _ _ _)).
  now rewrite !insert_insert_eq.
Qed.

(** X20. [html_template] with two non-empty strings makes a new document
    of nine committed lines: the doctype, then [<html>] around [<head>]
    around the head text and [<body>] around the body text; rendering
    prints the head and body texts at level 2, their tags at level 1 and
    the [html] tags and the doctype at level 0.  No existing object is
    changed. *)
Theorem html_template_strings (h : heap) (head body : string) (n : Z) :
  head <> EmptyString -> body <> EmptyString ->
  exists new document,
    h !! new = None
    /\ html_template (Str head) (Str body) h = (<[new := document]> h, Return new)
    /\ document
       = mkHtml [mk_HtmlLine "<!DOCTYPE html>" Indent.nothing;
                 mk_HtmlLine "<html>" Indent.indent;
                 mk_HtmlLine "<head>" Indent.indent;
                 mk_HtmlLine head Indent.dedent;
                 mk_HtmlLine "</head>" Indent.nothing;
                 mk_HtmlLine "<body>" Indent.indent;
                 mk_HtmlLine body Indent.dedent;
                 mk_HtmlLine "</body>" Indent.dedent;
                 mk_HtmlLine "</html>" Indent.nothing] EmptyString
    /\ to_raw_html n document
       = Return (emit_line n 0 "<!DOCTYPE html>"
                 +:+ emit_line n 0 "<html>"
                 +:+ emit_line n 1 "<head>"
                 +:+ emit_line n 2 head
                 +:+ emit_line n 1 "</head>"
                 +:+ emit_line n 1 "<body>"
                 +:+ emit_line n 2 body
                 +:+ emit_line n 1 "</body>"
                 +:+ emit_line n 0 "</html>"
                 +:+ ((str_mul " " n +:+ EmptyString) +:+ nl)).
Proof.
  intros Hh Hb. exists (fresh (dom h)), (template_value (inl head) (inl body)).
  split; [apply not_elem_of_dom, is_fresh|].
  split; [now apply html_template_run|].
  assert (template_value (inl head) (inl body)
          = mkHtml [mk_HtmlLine "<!DOCTYPE html>" Indent.nothing;
                    mk_HtmlLine "<html>" Indent.indent;
                    mk_HtmlLine "<head>" Indent.indent;
                    mk_HtmlLine head Indent.dedent;
                    mk_HtmlLine "</head>" Indent.nothing;
                    mk_HtmlLine "<body>" Indent.indent;
                    mk_HtmlLine body Indent.dedent;
                    mk_HtmlLine "</body>" Indent.dedent;
                    mk_HtmlLine "</html>" Indent.nothing] EmptyString) as ->.
  { unfold template_value. cbn [iadd_value].
    change (entered "<head>" (entered "<html>" (Html_init (StrContent "<!DOCTYPE html>"))))
      with (mkHtml [mk_HtmlLine "<!DOCTYPE html>" Indent.nothing;
                    mk_HtmlLine "<html>" Indent.indent;
                    mk_HtmlLine "<head>" Indent.indent] EmptyString).
    unfold iadd_str at 2. cbn [_inner_html _buffer]. rewrite str_app_nil_l.
    rewrite !exited_text by discriminate.
    rewrite (newline_append false _ (mkHtml _ head)) by (right; left; exact Hh).
    cbn [_inner_html _buffer coerce_indent app].
    rewrite (entered_text "<body>") by discriminate.
    change (_inner_html (newline false (AsIndent Indent.nothing) _))
      with [mk_HtmlLine "<!DOCTYPE html>" Indent.nothing;
            mk_HtmlLine "<html>" Indent.indent;
            mk_HtmlLine "<head>" Indent.indent;
            mk_HtmlLine head Indent.dedent;
            mk_HtmlLine "</head>" Indent.nothing].
    unfold iadd_str. cbn [_inner_html _buffer app]. rewrite str_app_nil_l.
    rewrite (newline_append false _ (mkHtml _ body)) by (right; left; exact Hb).
    reflexivity. }
  split; [reflexivity|].
  rewrite to_raw_html_from. cbn [_inner_html _buffer].
  replace (nonneg_from 0 _) with true by reflexivity.
  rewrite !render_from_cons, render_from_nil. cbn [line indent Indent.to_int].
  rewrite str_app_nil_r, !str_app_assoc. reflexivity.
Qed.

Lemma html_template_strings_witness :
  exists new document,
    html_template (Str "<title>t</title>") (Str "Hello") two_documents
    = (<[new := document]> two_documents, Return new)
    /\ to_raw_html 0 document
       = Return ("<!DOCTYPE html>" +:+ nl +:+ "<html>" +:+ nl +:+ "<head>" +:+ nl
                 +:+ "<title>t</title>" +:+ nl +:+ "</head>" +:+ nl
                 +:+ "<body>" +:+ nl +:+ "Hello" +:+ nl +:+ "</body>" +:+ nl
                 +:+ "</html>" +:+ nl +:+ nl).
Proof.
  destruct (html_template_strings two_documents "<title>t</title>" "Hello" 0
              ltac:(discriminate) ltac:(discriminate))
    as (new & document & _ & Hrun & _ & Hrender).
  exists new, document. split; [exact Hrun | exact Hrender].
Defined.

(** ** Appending inside scopes keeps documents renderable *)

Lemma add_nonpositive_lower (d delta : Indent.t) :
  (Indent.to_int delta <= 0)%Z ->
  (Indent.to_int d + Indent.to_int delta <= Indent.to_int (Indent.add d delta))%Z.
Proof. destruct d, delta; simpl; lia. Qed.

Lemma bump_last_lower (delta : Indent.t) (lines : list _HtmlLine) (c : Z) :
  (Indent.to_int delta <= 0)%Z -> lines <> [] ->
  nonneg_from 0 lines = true ->
  (c <= sum_from 0 lines + Indent.to_int delta)%Z -> (0 <= c)%Z ->
  nonneg_from 0 (bump_last delta lines) = true
  /\ (c <= sum_from 0 (bump_last delta lines))%Z.
Proof.
  intros Hd Hne Hok Hc Hc0.
  destruct lines as [|x xs _] using rev_ind; [congruence|].
  rewrite bump_last_snoc. rewrite nonneg_from_snoc in *.
  rewrite sum_from_snoc in Hc. rewrite sum_from_snoc. cbn [indent].
  apply andb_true_iff in Hok. destruct Hok as [Hxs _].
  pose proof (add_nonpositive_lower (indent x) delta Hd).
  rewrite Hxs, andb_true_l, Z.leb_le. split; lia.
Qed.

Lemma snoc_lower (l : _HtmlLine) (lines : list _HtmlLine) (c : Z) :
  nonneg_from 0 lines = true ->
  (c <= sum_from 0 lines + Indent.to_int (indent l))%Z -> (0 <= c)%Z ->
  nonneg_from 0 (lines ++ [l]) = true /\ (c <= sum_from 0 (lines ++ [l]))%Z.
Proof.
  intros Hok Hc Hc0. rewrite nonneg_from_snoc, sum_from_snoc, Hok, andb_true_l.
  rewrite Z.leb_le. split; lia.
Qed.

(** An unforced commit with a delta that is not Indent loses at most that
    delta. *)
Lemma at_least_newline (a : indent_arg) (self : Html) (k c : Z) :
  (Indent.to_int (coerce_indent a) <= 0)%Z ->
  at_least k self -> (c <= k + Indent.to_int (coerce_indent a))%Z -> (0 <= c)%Z ->
  at_least c (newline false a self).
Proof.
  intros Ha [Hok Hk] Hc Hc0. unfold at_least, newline.
  destruct (negb false && _ && _) eqn:E; cbn [_inner_html].
  - apply newline_merge_cond in E. destruct E as (_ & _ & Hne).
    apply bump_last_lower; try assumption. lia.
  - apply snoc_lower; cbn [indent]; try assumption. lia.
Qed.

Lemma at_least_entered (text : string) (self : Html) (k : Z) :
  text <> EmptyString -> (0 <= k)%Z -> at_least k self ->
  at_least (k + 1) (entered text self).
Proof.
  intros Ht Hk Hs. rewrite entered_text by exact Ht.
  destruct (at_least_newline (AsIndent Indent.nothing) self k k) as [Hok Hsum];
    try assumption; cbn [coerce_indent Indent.to_int]; try lia.
  unfold at_least. cbn [_inner_html].
  apply snoc_lower; cbn [indent Indent.to_int]; try assumption; lia.
Qed.

Lemma at_least_exited (text : string) (self : Html) (k : Z) :
  text <> EmptyString -> (0 <= k)%Z -> at_least (k + 1) self ->
  at_least k (exited text self).
Proof.
  intros Ht Hk Hs. rewrite exited_text by exact Ht.
  destruct (at_least_newline (AsIndent Indent.dedent) self (k + 1) k) as [Hok Hsum];
    try assumption; cbn [coerce_indent Indent.to_int]; try lia.
  unfold at_least. cbn [_inner_html].
  apply snoc_lower; cbn [indent Indent.to_int]; try assumption; lia.
Qed.

(** Splicing lines whose blank ones do not indent: the level of the result
    is at least the level the lines themselves reach. *)
Lemma fold_splice_lower (R : list _HtmlLine) :
  blank_lines_flat R ->
  forall (A : list _HtmlLine) (t : Z),
    A <> [] -> nonneg_from 0 A = true -> (t <= sum_from 0 A)%Z ->
    nonneg_from t R = true ->
    nonneg_from 0 (fold_left splice_line R A) = true
    /\ (sum_from t R <= sum_from 0 (fold_left splice_line R A))%Z.
Proof.
  induction 1 as [|l R Hl HR IH]; intros A t HA Hok Ht HtR.
  - simpl. now split.
  - cbn [nonneg_from] in HtR. apply andb_true_iff in HtR.
    destruct HtR as [Hl0 HtR]. apply Z.leb_le in Hl0.
    cbn [fold_left]. rewrite sum_from_cons.
    assert (nonneg_from 0 (splice_line A l) = true
            /\ (t + Indent.to_int (indent l) <= sum_from 0 (splice_line A l))%Z)
      as [Hok' Ht'].
    { unfold splice_line. destruct (decide (line l = EmptyString)) as [He|He].
      - apply bump_last_lower; try assumption; [|lia].
        specialize (Hl He). destruct (indent l); simpl; [lia | lia | congruence].
      - apply snoc_lower; try assumption. lia. }
    apply IH; try assumption. now apply splice_line_nonempty.
Qed.

Lemma at_least_iadd_value (self : Html) (v : string + Html) (k : Z) :
  (0 <= k)%Z -> at_least k self -> splice_safe v ->
  at_least k (iadd_value self v).
Proof.
  intros Hk Hs Hv. destruct v as [text|d]; [exact Hs|].
  destruct Hv as [Hdok Hdflat].
  destruct (at_least_newline (AsIndent Indent.nothing) self k k) as [Hok Hsum];
    try assumption; cbn [coerce_indent Indent.to_int]; try lia.
  unfold at_least, iadd_value, iadd_html. cbn [set_buffer _inner_html].
  rewrite fold_commit_lines by apply newline_nonempty.
  destruct (fold_splice_lower (_inner_html d) Hdflat
              (_inner_html (newline false (AsIndent Indent.nothing) self))
              (sum_from 0 (_inner_html (newline false (AsIndent Indent.nothing) self))))
    as [Hok' Hsum'].
  - apply newline_nonempty.
  - exact Hok.
  - lia.
  - apply (nonneg_from_mono 0); [lia | exact Hdok].
  - split; [exact Hok'|].
    rewrite sum_from_shift in Hsum'.
    assert (0 <= sum_from 0 (_inner_html d))%Z
      by (apply nonneg_from_sum; [exact Hdok | lia]).
    lia.
Qed.

Lemma at_least_template (hv bv : string + Html) :
  splice_safe hv -> splice_safe bv -> at_least 0 (template_value hv bv).
Proof.
  intros Hh Hb. unfold template_value.
  apply (at_least_exited "</html>"); [discriminate | lia |].
  apply (at_least_exited "</body>" _ (0 + 1)); [discriminate | lia |].
  apply at_least_iadd_value; [lia | | exact Hb].
  apply (at_least_entered "<body>" _ (0 + 1)); [discriminate | lia |].
  apply (at_least_exited "</head>" _ (0 + 1)); [discriminate | lia |].
  apply at_least_iadd_value; [lia | | exact Hh].
  apply (at_least_entered "<head>" _ (0 + 1)); [discriminate | lia |].
  apply (at_least_entered "<html>" _ 0); [discriminate | lia |].
  split; [reflexivity | simpl; lia].
Qed.

Lemma starts_with_newline (l0 : _HtmlLine) (force : bool) (a : indent_arg)
    (s : Html) :
  starts_with l0 s -> starts_with l0 (newline force a s).
Proof.
  intros (x & rest & Hs). unfold newline, starts_with. rewrite Hs.
  destruct (negb force && _ && _); cbn [_inner_html].
  - rewrite bump_last_cons.
    destruct (bump_last (coerce_indent a) (x :: rest)) as [|y ys] eqn:E.
    + apply (f_equal length) in E. rewrite bump_last_length in E. discriminate.
    + eauto.
  - cbn [app]. eauto.
Qed.

Lemma starts_with_entered (l0 : _HtmlLine) (text : string) (s : Html) :
  starts_with l0 s -> starts_with l0 (entered text s).
Proof.
  intros H. unfold entered.
  apply starts_with_newline. unfold iadd_str, starts_with. cbn [_inner_html].
  now apply starts_with_newline.
Qed.

Lemma starts_with_exited (l0 : _HtmlLine) (text : string) (s : Html) :
  starts_with l0 s -> starts_with l0 (exited text s).
Proof.
  intros H. unfold exited.
  apply starts_with_newline. unfold iadd_str, starts_with. cbn [_inner_html].
  now apply starts_with_newline.
Qed.

Lemma starts_with_iadd_value (l0 : _HtmlLine) (s : Html) (v : string + Html) :
  starts_with l0 s -> starts_with l0 (iadd_value s v).
Proof.
  intros H. destruct v as [text|d]; [exact H|].
  unfold iadd_value, iadd_html.
  assert (forall ls s', starts_with l0 s' ->
                        starts_with l0 (fold_left commit_line ls s')) as Hfold.
  { induction ls as [|l ls IH]; intros s' Hs'; [exact Hs'|].
    cbn [fold_left]. apply IH. unfold commit_line.
    now apply starts_with_newline. }
  unfold set_buffer, starts_with. cbn [_inner_html].
  apply Hfold. now apply starts_with_newline.
Qed.

(** X21. [html_template] with strings or with documents that render and
    whose blank lines do not indent: it returns a new object and changes no
    existing one; the new document starts with the doctype line, ends with
    the [</html>] line, has no pending text, and renders at every indent
    size. *)
Theorem html_template_renders (h : heap) (head_content body_content : content)
    (hv bv : string + Html) :
  content_value h head_content = Some hv ->
  content_value h body_content = Some bv ->
  splice_safe hv -> splice_safe bv ->
  exists new document,
    h !! new = None
    /\ html_template head_content body_content h
       = (<[new := document]> h, Return new)
    /\ _inner_html document !! 0%nat
       = Some (mk_HtmlLine "<!DOCTYPE html>" Indent.nothing)
    /\ last (_inner_html document) = Some (mk_HtmlLine "</html>" Indent.nothing)
    /\ _buffer document = EmptyString
    /\ forall n, exists out, to_raw_html n document = Return out.
Proof.
  intros Hh Hb Hsh Hsb.
  exists (fresh (dom h)), (template_value hv bv).
  split; [apply not_elem_of_dom, is_fresh|].
  split; [now apply html_template_run|].
  split.
  { assert (starts_with (mk_HtmlLine "<!DOCTYPE html>" Indent.nothing)
              (template_value hv bv)) as (x & rest & ->); [|reflexivity].
    unfold template_value.
    do 2 apply starts_with_exited. apply starts_with_iadd_value.
    apply starts_with_entered, starts_with_exited, starts_with_iadd_value.
    apply starts_with_entered. unfold starts_with. cbn. eauto. }
  unfold template_value. rewrite (exited_text "</html>") by discriminate.
  cbn [_inner_html _buffer]. split; [apply last_snoc|]. split; [reflexivity|].
  intros n. rewrite <- (exited_text "</html>") by discriminate.
  fold (template_value hv bv). rewrite to_raw_html_spec.
  destruct (at_least_template hv bv Hsh Hsb) as [-> _]. eauto.
Qed.

Lemma html_template_renders_witness :
  exists new document,
    html_template (Str "<title>t</title>") (Doc 2%positive) two_documents
    = (<[new := document]> two_documents, Return new)
    /\ exists out, to_raw_html 2 document = Return out.
Proof.
  assert (splice_safe (inr (mkHtml [mk_HtmlLine "<p>" Indent.indent] "c")))
    as Hsafe by (split; [reflexivity | repeat constructor; discriminate]).
  destruct (html_template_renders two_documents
              (Str "<title>t</title>") (Doc 2%positive)
              (inl "<title>t</title>")
              (inr (mkHtml [mk_HtmlLine "<p>" Indent.indent] "c"))
              eq_refl eq_refl I Hsafe)
    as (new & document & _ & Hrun & _ & _ & _ & Hrender).
  exists new, document. split; [exact Hrun | apply Hrender].
Defined.

(** ** Built documents can be appended anywhere *)

Lemma blank_flat_snoc (lines : list _HtmlLine) (l : _HtmlLine) :
  blank_lines_flat lines ->
  (line l = EmptyString -> indent l <> Indent.indent) ->
  blank_lines_flat (lines ++ [l]).
Proof.
  intros Hl Hx. apply Forall_app. split; [exact Hl | now constructor].
Qed.

Lemma blank_flat_newline (force : bool) (a : indent_arg) (s : Html) :
  coerce_indent a <> Indent.indent ->
  blank_lines_flat (_inner_html s) ->
  blank_lines_flat (_inner_html (newline force a s)).
Proof.
  intros Ha Hs. unfold newline.
  destruct (negb force && _ && _) eqn:E; cbn [_inner_html].
  - destruct (_inner_html s) as [|x xs _] using rev_ind; [exact Hs|].
    rewrite bump_last_snoc. apply Forall_app in Hs. destruct Hs as [Hxs Hx].
    apply blank_flat_snoc; [exact Hxs|]. cbn [line indent].
    inversion Hx as [|? ? Hx0 _]; subst. intros He. specialize (Hx0 He).
    destruct (indent x), (coerce_indent a); try congruence;
      vm_compute; discriminate.
  - apply blank_flat_snoc; [exact Hs|]. intros _. exact Ha.
Qed.

Lemma blank_flat_entered (text : string) (s : Html) :
  text <> EmptyString ->
  blank_lines_flat (_inner_html s) ->
  blank_lines_flat (_inner_html (entered text s)).
Proof.
  intros Ht Hs. rewrite entered_text by exact Ht. cbn [_inner_html].
  apply blank_flat_snoc; [|cbn [line]; congruence].
  apply blank_flat_newline; [discriminate | exact Hs].
Qed.

Lemma blank_flat_exited (text : string) (s : Html) :
  text <> EmptyString ->
  blank_lines_flat (_inner_html s) ->
  blank_lines_flat (_inner_html (exited text s)).
Proof.
  intros Ht Hs. rewrite exited_text by exact Ht. cbn [_inner_html].
  apply blank_flat_snoc; [|cbn [line]; congruence].
  apply blank_flat_newline; [discriminate | exact Hs].
Qed.

Lemma blank_flat_exec (p : stmt) :
  commits_nothing p = true ->
  forall s, blank_lines_flat (_inner_html s) ->
            blank_lines_flat (_inner_html (fst (exec p s))).
Proof.
  induction p as [| | force a | name id_ classes styles attributes body IH
                 | p IHp q IHq |]; cbn [commits_nothing exec];
    intros Hp s Hs; try exact Hs.
  - apply bool_decide_eq_true in Hp.
    apply blank_flat_newline; [congruence | exact Hs].
  - rewrite tag_unfold. cbn [fst].
    apply blank_flat_exited; [apply close_tag_nonempty|].
    apply IH; [exact Hp|].
    apply blank_flat_entered; [apply open_tag_nonempty | exact Hs].
  - apply andb_true_iff in Hp. destruct Hp as [Hp Hq].
    specialize (IHp Hp s Hs). unfold bind.
    destruct (exec p s) as [s' [[]|e]]; cbn [fst] in *; [now apply IHq | exact IHp].
Qed.

Lemma blank_flat_init (c : init_content) :
  blank_lines_flat (_inner_html (Html_init c)).
Proof.
  destruct c as [|t|texts]; cbn.
  - constructor.
  - repeat constructor. discriminate.
  - apply Forall_map. apply Forall_forall. intros t _ _. discriminate.
Qed.

Lemma built_splice_safe (c : init_content) (p : stmt) :
  commits_nothing p = true -> splice_safe (inr (fst (exec p (Html_init c)))).
Proof.
  intros Hp. split.
  - apply (balanced_exec p Hp), balanced_init.
  - apply blank_flat_exec; [exact Hp | apply blank_flat_init].
Qed.

(** X22. The template of two built documents always renders: when the head
    and the body are documents made by [Html(...)] and then only written
    to, committed with delta Nothing and wrapped in tag scopes,
    [html_template] returns a new document on which [to_raw_html] returns
    at every indent size, and the head and body documents are unchanged. *)
Theorem html_template_of_built_documents (h : heap) (head_doc body_doc : loc)
    (c1 c2 : init_content) (p1 p2 : stmt) :
  commits_nothing p1 = true -> commits_nothing p2 = true ->
  h !! head_doc = Some (fst (exec p1 (Html_init c1))) ->
  h !! body_doc = Some (fst (exec p2 (Html_init c2))) ->
  exists new document,
    html_template (Doc head_doc) (Doc body_doc) h
    = (<[new := document]> h, Return new)
    /\ <[new := document]> h !! head_doc = h !! head_doc
    /\ <[new := document]> h !! body_doc = h !! body_doc
    /\ forall n, exists out, to_raw_html n document = Return out.
Proof.
  intros Hp1 Hp2 Hh Hb.
  exists (fresh (dom h)),
         (template_value (inr (fst (exec p1 (Html_init c1))))
                         (inr (fst (exec p2 (Html_init c2))))).
  assert (h !! fresh (dom h) = None) as Hfresh
    by (apply not_elem_of_dom, is_fresh).
  split; [apply html_template_run; simpl; [now rewrite Hh | now rewrite Hb]|].
  split; [rewrite lookup_insert_ne; [reflexivity | congruence]|].
  split; [rewrite lookup_insert_ne; [reflexivity | congruence]|].
  intros n. rewrite to_raw_html_spec.
  destruct (at_least_template _ _ (built_splice_safe c1 p1 Hp1)
              (built_splice_safe c2 p2 Hp2)) as [-> _].
  eauto.
Qed.

Lemma html_template_of_built_documents_witness :
  exists new document,
    html_template (Doc 1%positive) (Doc 2%positive) built_documents
    = (<[new := document]> built_documents, Return new)
    /\ exists out, to_raw_html 2 document = Return out.
Proof.
  destruct (html_template_of_built_documents built_documents
              1%positive 2%positive
              (StrContent "<title>t</title>") NoContent
              SPass
              (STag "div" None None None None
                 (STag "p" None None None None (SWrite "Hello World!")))
              eq_refl eq_refl eq_refl eq_refl)
    as (new & document & Hrun & _ & _ & Hrender).
  exists new, document. split; [exact Hrun | apply Hrender].
Defined.

(** ** Copies *)



(** ** Appending a document to itself *)

Lemma iadd_loop_step (self other : loc) (size0 counter index : nat) (h : heap)
    (d : Html) :
  h !! other = Some d -> length (_inner_html d) <> size0 ->
  iadd_loop self other size0 counter index h
  = (h, Raise (RuntimeError "deque mutated during iteration")).
Proof.
  intros Hd Hlen.
  destruct counter; cbn [iadd_loop];
    rewrite (bind_return _ _ _ _ _ (load_some _ _ _ Hd));
    now rewrite decide_False by exact Hlen.
Qed.

(** With [other] the object [self] itself, the loop raises as soon as it
    has committed a line with text. *)
Lemma iadd_loop_self (x : loc) (counter : nat) :
  forall (index j : nat) (s : Html) (h : heap) (t : string),
    h !! x = Some s ->
    (index + counter)%nat = length (_inner_html s) ->
    (index <= j)%nat -> map line (_inner_html s) !! j = Some t ->
    t <> EmptyString ->
    snd (iadd_loop x x (length (_inner_html s)) counter index h)
    = Raise (RuntimeError "deque mutated during iteration").
Proof.
  induction counter as [|counter IH]; intros index j s h t Hs Hlen Hj Ht Hne.
  - apply lookup_lt_Some in Ht. rewrite length_map in Ht. lia.
  - cbn [iadd_loop].
    rewrite (bind_return _ _ _ _ _ (load_some _ _ _ Hs)).
    rewrite decide_True by reflexivity.
    destruct (lookup_lt_is_Some_2 (_inner_html s) index ltac:(lia)) as [l Hl].
    rewrite Hl.
    rewrite (bind_return _ _ _ _ _ (on_obj_modify _ _ _ _ Hs)).
    rewrite (bind_return _ _ _ _ _
               (on_obj_modify _ _ _ _ (lookup_insert_eq h x _))).
    rewrite insert_insert_eq.
    destruct (decide (line l = EmptyString)) as [He|He].
    + assert (newline false (AsIndent (indent l)) (set_buffer (line l) s)
              = mkHtml (bump_last (indent l) (_inner_html s)) EmptyString) as ->.
      { unfold newline, set_buffer. cbn [_inner_html _buffer]. rewrite He.
        destruct (_inner_html s); [discriminate | reflexivity]. }
      assert (index <> j) as Hij.
      { intros <-. rewrite list_lookup_fmap, Hl in Ht. simpl in Ht. congruence. }
      pose proof (IH (S index) j
                    (mkHtml (bump_last (indent l) (_inner_html s)) EmptyString)
                    (<[x := mkHtml (bump_last (indent l) (_inner_html s))
                              EmptyString]> h) t) as IH'.
      cbn [_inner_html] in IH'. rewrite bump_last_length, bump_last_texts in IH'.
      apply IH'; [apply lookup_insert_eq | lia | lia | exact Ht | exact Hne].
    + rewrite (iadd_loop_step x x _ counter (S index) _
                 (newline false (AsIndent (indent l)) (set_buffer (line l) s)));
        [reflexivity | apply lookup_insert_eq |].
      rewrite newline_append by (right; left; exact He).
      cbn [_inner_html set_buffer]. rewrite length_app. simpl. lia.
Qed.

(** X24. [x += x] never doubles a document that holds text: when [x] has
    pending text or a committed line with text, the loop appends to the
    deque it iterates and the append raises [RuntimeError]. *)
Theorem iadd_self_raises (h : heap) (x : loc) (d : Html) :
  h !! x = Some d ->
  _buffer d <> EmptyString
  \/ Exists (fun l => line l <> EmptyString) (_inner_html d) ->
  snd (Html_iadd x (Doc x) h)
  = Raise (RuntimeError "deque mutated during iteration").
Proof.
  intros Hd Htext. unfold Html_iadd.
  rewrite (bind_return _ _ _ _ _ (on_obj_modify _ _ _ _ Hd)).
  set (s := newline false (AsIndent Indent.nothing) d).
  rewrite (bind_return _ _ _ _ _ (load_some _ _ _ (lookup_insert_eq h x s))).
  assert (exists j t, map line (_inner_html s) !! j = Some t /\ t <> EmptyString)
    as (j & t & Ht & Hne).
  { subst s. destruct (decide (_buffer d = EmptyString)) as [Hb|Hb].
    - destruct Htext as [Hbuf | Hex]; [congruence|].
      apply Exists_exists in Hex. destruct Hex as (l & Hin & Hl).
      apply list_elem_of_lookup in Hin. destruct Hin as [j Hj].
      exists j, (line l). split; [|exact Hl].
      destruct (newline_texts false (AsIndent Indent.nothing) d) as [-> | ->].
      + now rewrite list_lookup_fmap, Hj.
      + rewrite lookup_app_l, list_lookup_fmap, Hj; [reflexivity|].
        rewrite length_map. now apply lookup_lt_Some in Hj.
    - exists (length (_inner_html d)), (_buffer d). split; [|exact Hb].
      rewrite newline_append by (right; left; exact Hb). cbn [_inner_html].
      rewrite map_app. cbn [map line].
      rewrite lookup_app_r by (rewrite length_map; lia).
      rewrite length_map, Nat.sub_diag. reflexivity. }
  unfold bind at 1.
  pose proof (iadd_loop_self x (length (_inner_html s)) 0 j s (<[x := s]> h) t
                (lookup_insert_eq _ _ _) eq_refl ltac:(lia) Ht Hne) as Hloop.
  destruct (iadd_loop x x (length (_inner_html s)) (length (_inner_html s)) 0
              (<[x := s]> h)) as [h' r].
  cbn [snd] in Hloop. subst r. reflexivity.
Qed.

Lemma iadd_self_raises_witness :
  snd (Html_iadd 1%positive (Doc 1%positive) two_documents)
  = Raise (RuntimeError "deque mutated during iteration").
Proof.
  apply (iadd_self_raises two_documents 1%positive
           (mkHtml [mk_HtmlLine "a" Indent.nothing] "b") eq_refl).
  left. discriminate.
Defined.
